(** * mdcx crawler debugging tool ([mdcx/cmd/crawl.py])

    A shallow embedding of the command line front end of the crawler
    debugging tool: the root command [main] with its multi-site dispatch
    [_crawl], the [fetch] sub-command with [_fetch_async], site detection
    [_detect_site_from_url] and output path derivation
    [_determine_output_path].

    Python [str] values are modelled by [string]; [str | None] by
    [option string]; exceptions and console/file/browser effects by a small
    state-and-exception monad over an explicit [World]. *)

From Stdlib Require Import Ascii String.
From stdpp Require Import base option list strings pretty gmap.
From Stdlib Require Import ZArith Lia.

Local Open Scope string_scope.
Local Open Scope list_scope.
Local Open Scope stdpp_scope.

(** ** Python string operations used by the source *)

Module PyStr.

(** Truthiness of a [str]: only the empty string is falsy. *)
Definition truthy (s : string) : bool :=
  match s with
  | EmptyString => false
  | String _ _ => true
  end.

(** Truthiness of a [str | None]. *)
Definition truthy_opt (o : option string) : bool :=
  match o with
  | None => false
  | Some s => truthy s
  end.

(** [needle in hay] *)
Fixpoint contains (needle hay : string) : bool :=
  if String.prefix needle hay then true
  else match hay with
       | EmptyString => false
       | String _ hay' => contains needle hay'
       end.

(** [s.lstrip(c)] for a one-character set. *)
Fixpoint lstrip (c : ascii) (s : string) : string :=
  match s with
  | EmptyString => EmptyString
  | String a s' => if Ascii.eqb a c then lstrip c s' else s
  end.

(** [s.rstrip(c)] for a one-character set. *)
Fixpoint rstrip (c : ascii) (s : string) : string :=
  match s with
  | EmptyString => EmptyString
  | String a s' =>
      match rstrip c s' with
      | EmptyString => if Ascii.eqb a c then EmptyString else String a EmptyString
      | r => String a r
      end
  end.

(** [s.strip(c)] *)
Definition strip (c : ascii) (s : string) : string := rstrip c (lstrip c s).

(** [s.split(c)] with an explicit one-character separator. *)
Fixpoint split (c : ascii) (s : string) : list string :=
  match s with
  | EmptyString => [EmptyString]
  | String a s' =>
      if Ascii.eqb a c then EmptyString :: split c s'
      else match split c s' with
           | h :: t => String a h :: t
           | [] => [String a EmptyString]
           end
  end.

(** [s.replace(c, d)] for one-character [c] and [d]. *)
Fixpoint replace (c d : ascii) (s : string) : string :=
  match s with
  | EmptyString => EmptyString
  | String a s' => String (if Ascii.eqb a c then d else a) (replace c d s')
  end.

(** [sep.join(l)] *)
Fixpoint join (sep : string) (l : list string) : string :=
  match l with
  | [] => EmptyString
  | [x] => x
  | x :: rest => x +:+ sep +:+ join sep rest
  end.

(** ASCII lower-casing, the restriction of [str.lower] to ASCII text. *)
Definition lower_ascii (a : ascii) : ascii :=
  let n := nat_of_ascii a in
  if (65 <=? n)%nat && (n <=? 90)%nat then ascii_of_nat (n + 32) else a.

Fixpoint lower (s : string) : string :=
  match s with
  | EmptyString => EmptyString
  | String a s' => String (lower_ascii a) (lower s')
  end.

End PyStr.

(** ** [pathlib.Path] (POSIX flavour) *)

Module PyPath.

(** A pure path: its root ([""], ["/"] or ["//"]) and its components. *)
Record Path := mkPath { root : string; parts : list string }.

Definition path_root (s : string) : string :=
  match s with
  | String "/" (String "/" (String "/" _)) => "/"
  | String "/" (String "/" _) => "//"
  | String "/" _ => "/"
  | _ => ""
  end.

Definition is_component (p : string) : bool :=
  negb (String.eqb p "") && negb (String.eqb p ".").

Definition path_components (s : string) : list string :=
  List.filter is_component (PyStr.split "/" s).

(** [Path(s)] *)
Definition of_str (s : string) : Path :=
  mkPath (path_root s) (path_components s).

(** [p / s]: an absolute right operand replaces the left one. *)
Definition joinpath (p : Path) (s : string) : Path :=
  if PyStr.truthy (path_root s) then of_str s
  else mkPath (root p) (parts p ++ path_components s).

(** [p.parent] *)
Definition parent (p : Path) : Path :=
  mkPath (root p) (removelast (parts p)).

(** [str(p)] *)
Definition to_str (p : Path) : string :=
  match root p, parts p with
  | EmptyString, [] => "."
  | r, ps => r +:+ PyStr.join "/" ps
  end.

End PyPath.

Infix "</>" := PyPath.joinpath (at level 40, left associativity).

(** ** Site identifiers *)

(** A member of the [Website] enumeration, identified by its [value]. *)
Record Website := mkWebsite { value : string }.

(** ** Output path derivation *)

(** [_determine_output_path], lines 297-323. *)
Definition _determine_output_path
    (output_path : option string) (url : string) (site : option Website)
    (number : option string) (base_dir : string) : PyPath.Path :=
  if PyStr.truthy_opt output_path then
    PyPath.of_str (default "" output_path)
  else
    let base_path := PyPath.of_str base_dir in
    let filename :=
      if PyStr.truthy_opt number then
        default "" number +:+ ".html"
      else
        let url_parts := PyStr.split "/" (PyStr.strip "/" url) in
        match url_parts with
        | _ :: _ =>
            let identifier := List.last url_parts "" in
            let identifier :=
              PyStr.replace "&" "_"
                (PyStr.replace "?" "_" (PyStr.replace "=" "_" identifier)) in
            identifier +:+ ".html"
        | [] => "detail.html"
        end in
    match site with
    | Some s => base_path </> value s </> filename
    | None => base_path </> filename
    end.

(** ** Data model *)

(** Python exceptions that cross the functions of [crawl.py]. *)
Inductive exn :=
  | Exc (msg : string)       (* an [Exception] instance; [msg] is [str(e)] *)
  | TyperExit (code : Z)     (* [typer.Exit(code)], a [RuntimeError] *)
  | SystemExit (code : Z).   (* raised by the built-in [exit(code)] *)

(** [isinstance(e, Exception)]: what [except Exception] catches. *)
Definition is_Exception (e : exn) : bool :=
  match e with
  | Exc _ | TyperExit _ => true
  | SystemExit _ => false
  end.

(** [str(e)] *)
Definition exn_str (e : exn) : string :=
  match e with
  | Exc msg => msg
  | TyperExit code | SystemExit code => pretty code
  end.

(** Result of a monadic computation. *)
Inductive result (A : Type) :=
  | Ok (a : A)
  | Raise (e : exn).
Arguments Ok {A} a.
Arguments Raise {A} e.

(** Result of a call into a collaborator: it returns, or raises an
    [Exception] whose [str] is [msg]. *)
Inductive outcome (A : Type) :=
  | Returned (a : A)
  | Raised (msg : string).
Arguments Returned {A} a.
Arguments Raised {A} msg.

(** A member of the [Language] enumeration, identified by its value. *)
Record Language := mkLanguage { lang_value : string }.

Record CrawlerInput := mkCrawlerInput {
  number : string;
  appoint_url : string;
  file_path : option string;
  short_number : string;
  mosaic : string;
  appoint_number : string;
  language : Language;
  org_language : Language
}.

(** The success payload; [json] is [json.dumps(asdict(data), ...)]. *)
Record Data := mkData { json : string }.

(** [execution_time] is kept in milliseconds. *)
Record DebugInfo := mkDebugInfo {
  logs : list string;
  execution_time : Z;
  error : string
}.

Record CrawlResult := mkCrawlResult {
  data : option Data;
  debug_info : DebugInfo
}.

Record AsyncWebClient := mkClient {
  proxy : option string;
  retry : Z;
  timeout : Z
}.

(** Handle of a launched browser session. *)
Inductive Browser := BrowserSession (id : nat).

(** Lines written to the console. *)
Inductive Msg :=
  | MsgNoSite
  | MsgAvailableSites
  | MsgSiteItem (i : nat) (site : Website)
  | MsgNeedNumberOrUrl
  | MsgHeader (site : Website)
  | MsgTaskError (e : string)
  | MsgDebugInfo (lines : list string)
  | MsgElapsed (ms : Z)
  | MsgSuccess
  | MsgJson (j : string)
  | MsgSaved (path : PyPath.Path)
  | MsgFailed
  | MsgError (e : string)
  | MsgAutoDetected (site : Website)
  | MsgFetching (url : string)
  | MsgSiteType (v : string)
  | MsgProxy (p : string)
  | MsgCrawlerNotFound (v : string)
  | MsgFetchFailed (e : string)
  | MsgFetchOk
  | MsgSavedTo (path : PyPath.Path)
  | MsgSize (n : nat)
  | MsgException (e : string).

(** Observable effects, in the order in which they happen. *)
Inductive Event :=
  | EvPrint (m : Msg)
  | EvClientCreate (c : AsyncWebClient)
  | EvProviderCreate
  | EvGetBrowser
  | EvLaunch (b : Browser)
  | EvClose
  | EvMkdir (p : PyPath.Path)
  | EvWrite (p : PyPath.Path) (content : string).

(** [x or y] on [str | None] operands. *)
Definition or_str (x y : option string) : option string :=
  if PyStr.truthy_opt x then x else y.

(** [x or y] on [int] operands. *)
Definition or_int (x y : Z) : Z :=
  if Z.eqb x 0 then y else x.

(** [s.replace(old, new)] for a non-empty [old]; [skip] characters of a
    match just replaced are dropped. *)
Fixpoint replace_sub (old new : string) (skip : nat) (s : string) : string :=
  match s with
  | EmptyString => EmptyString
  | String a s' =>
      match skip with
      | S k => replace_sub old new k s'
      | O =>
          if String.prefix old s
          then new +:+ replace_sub old new (String.length old - 1) s'
          else String a (replace_sub old new 0 s')
      end
  end.

Section Model.

(** State of everything outside the process (remote sites, network). *)
Context {Net : Type}.

(** A crawler class ([GenericBaseCrawler] subclass or [LegacyCrawler]).
    [run] is [c(client=, base_url=, browser=).run(input)];
    [_fetch_detail] is
    [c(client=, base_url=, browser=)._fetch_detail(new_context(input), url, None)]. *)
Record CrawlerClass := mkCrawlerClass {
  site : Website;
  run : AsyncWebClient → string → Browser → CrawlerInput →
        Net → outcome CrawlResult * Net;
  _fetch_detail : AsyncWebClient → string → option Browser → CrawlerInput →
        string → Net → outcome (option string * string) * Net
}.

(** The collaborators of [crawl.py]: configuration manager, registries,
    HTTP client and browser automation. *)
Record Env := mkEnv {
  config_proxy : string;
  config_use_proxy : bool;
  config_timeout : Z;
  config_retry : Z;
  get_site_url : Website → string;
  (* the members of [Website], in definition order *)
  websites : list Website;
  (* the values of the members of [Language] *)
  is_language : string → bool;
  (* [ManualConfig.WEB_DIC.items()] *)
  WEB_DIC : list (string * Website);
  (* [str.lower] *)
  str_lower : string → string;
  get_crawler_compat : Website → CrawlerClass;
  get_crawler : Website → option CrawlerClass;
  (* [AsyncWebClient.get_text] *)
  get_text : AsyncWebClient → string → Net → outcome (option string * string) * Net;
  (* launching the browser automation session *)
  launch : Net → outcome Browser * Net;
  (* [new_page()], [goto(url, wait_until="load")], [content()] *)
  page_content : Browser → string → Net → outcome string * Net
}.

Context (env : Env).

Record World := mkWorld {
  trace : list Event;
  (* the session cached by the browser provider *)
  session : option Browser;
  files : gmap string string;
  dirs : gset string;
  net : Net;
  (* the order in which the executor lets submitted tasks complete *)
  sched : list nat
}.

(** ** The effect monad *)

Definition M (A : Type) : Type := World → result A * World.

#[global] Instance M_ret : MRet M := λ A a w, (Ok a, w).

#[global] Instance M_bind : MBind M := λ A B f m w,
  match m w with
  | (Ok a, w') => f a w'
  | (Raise e, w') => (Raise e, w')
  end.

Definition raise {A} (e : exn) : M A := λ w, (Raise e, w).

Definition emit (e : Event) : M unit := λ w,
  (Ok tt, mkWorld (trace w ++ [e]) (session w) (files w) (dirs w) (net w) (sched w)).

Definition print (m : Msg) : M unit := emit (EvPrint m).

Definition set_session (s : option Browser) : M unit := λ w,
  (Ok tt, mkWorld (trace w) s (files w) (dirs w) (net w) (sched w)).

(** A call into a collaborator that may touch the outside world. *)
Definition call {A} (f : Net → outcome A * Net) : M A := λ w,
  let '(o, n) := f (net w) in
  let w' := mkWorld (trace w) (session w) (files w) (dirs w) n (sched w) in
  match o with
  | Returned a => (Ok a, w')
  | Raised msg => (Raise (Exc msg), w')
  end.

(** [try: body except Exception as e: handler(e)] *)
Definition try_except {A} (body : M A) (handler : exn → M A) : M A := λ w,
  match body w with
  | (Raise e, w') => if is_Exception e then handler e w' else (Raise e, w')
  | r => r
  end.

(** [try: body finally: fin] *)
Definition try_finally {A} (body : M A) (fin : M unit) : M A := λ w,
  let '(r, w1) := body w in
  match fin w1 with
  | (Ok _, w2) => (r, w2)
  | (Raise e, w2) => (Raise e, w2)
  end.

(** [for i, x in enumerate(l, start): body(i, x)] *)
Fixpoint for_enumerate {A} (start : nat) (l : list A)
    (body : nat → A → M unit) : M unit :=
  match l with
  | [] => mret tt
  | x :: l' => body start x;; for_enumerate (S start) l' body
  end.

(** Exit status of the process when a command ends with [r]. *)
Definition exit_code {A} (r : result A) : Z :=
  match r with
  | Ok _ => 0
  | Raise (TyperExit code) => code
  | Raise (SystemExit code) => code
  | Raise (Exc _) => 1
  end.

(** ** File system: [Path.mkdir] and [Path.write_text]

    Both are taken to succeed; directories and files are keyed by
    [str(path)]. *)

(** [p] and all its ancestors below the root. *)
Definition with_parents (p : PyPath.Path) : list PyPath.Path :=
  map (λ n, PyPath.mkPath (PyPath.root p) (take n (PyPath.parts p)))
      (seq 1 (length (PyPath.parts p))).

(** [p.mkdir(parents=True, exist_ok=True)] *)
Definition mkdir (p : PyPath.Path) : M unit := λ w,
  (Ok tt, mkWorld (trace w ++ [EvMkdir p]) (session w) (files w)
            (dirs w ∪ list_to_set (map PyPath.to_str (with_parents p)))
            (net w) (sched w)).

(** [p.write_text(content, encoding="utf-8")] *)
Definition write_text (p : PyPath.Path) (content : string) : M unit := λ w,
  (Ok tt, mkWorld (trace w ++ [EvWrite p content]) (session w)
            (<[PyPath.to_str p := content]> (files w)) (dirs w)
            (net w) (sched w)).

(** ** Collaborator objects *)

(** [AsyncWebClient(proxy=, retry=, timeout=, log_fn=)] *)
Definition AsyncWebClient_new (proxy : option string) (retry timeout : Z)
    : M AsyncWebClient :=
  let c := mkClient proxy retry timeout in
  emit (EvClientCreate c);; mret c.

(** Modelled from the spec: [mdcx.browser.BrowserProvider].  The provider
    is created without a session; the first [get_browser] launches one
    and caches it, later calls return the cached handle; [close] tears
    the session down and does nothing when there is none. *)
Definition BrowserProvider_new : M unit :=
  emit EvProviderCreate;; set_session None.

(** Modelled from the spec: [BrowserProvider.get_browser], the cached
    get-or-launch; a failed launch raises and leaves no session. *)
Definition get_browser : M Browser := λ w,
  (emit EvGetBrowser;;
   match session w with
   | Some b => mret b
   | None =>
       b ← call (launch env);
       emit (EvLaunch b);;
       set_session (Some b);;
       mret b
   end) w.

(** Modelled from the spec: [BrowserProvider.close], the idempotent
    release. *)
Definition close : M unit :=
  emit EvClose;; set_session None.

(** ** Multi-site dispatch *)

(** The coroutine object [task(c)] of [_crawl]: the class together with
    the variables the closure captures. *)
Record Coroutine := mkCoroutine {
  coro_class : CrawlerClass;
  coro_client : AsyncWebClient;
  coro_input : CrawlerInput
}.

(** [task], lines 104-110. *)
Definition task (client : AsyncWebClient) (input : CrawlerInput)
    (c : CrawlerClass) : M CrawlResult :=
  let base_url := get_site_url env (site c) in
  browser ← get_browser;
  call (run c client base_url browser input).

(** Modelled from the spec: [mdcx.utils.executor].  [submit] schedules a
    coroutine on the shared loop and returns its future; a future holds
    the outcome of its own coroutine once that has run, an exception
    raised by the coroutine included. *)
Inductive Future :=
  | Pending (t : Coroutine)
  | Done (o : outcome CrawlResult).

(** Modelled from the spec: [executor.submit]. *)
Definition submit (t : Coroutine) : Future := Pending t.

(** Modelled from the spec: the executor runs a scheduled coroutine to its
    terminal state, success or failure. *)
Definition run_coroutine (t : Coroutine) : M (outcome CrawlResult) := λ w,
  match task (coro_client t) (coro_input t) (coro_class t) w with
  | (Ok r, w') => (Ok (Returned r), w')
  | (Raise e, w') => (Ok (Raised (exn_str e)), w')
  end.

(** Modelled from the spec: the task behind future number [i] completes,
    if it is still pending, and its outcome goes to that future. *)
Definition complete (i : nat) (futures : list Future) : M (list Future) :=
  match futures !! i with
  | Some (Pending t) =>
      o ← run_coroutine t;
      mret (<[i := Done o]> futures)
  | _ => mret futures
  end.

(** Modelled from the spec: tasks complete one after the other, in the
    order [order]. *)
Fixpoint complete_all (order : list nat) (futures : list Future)
    : M (list Future) :=
  match order with
  | [] => mret futures
  | i :: order' =>
      futures' ← complete i futures;
      complete_all order' futures'
  end.

(** Modelled from the spec: [executor.wait_all] blocks until every
    submitted task is in a terminal state.  Tasks complete in the order
    [sched] of the world (numbers that name no pending task are skipped);
    tasks [sched] leaves out complete afterwards. *)
Definition wait_all (futures : list Future) : M (list Future) := λ w,
  (futures' ← complete_all (sched w) futures;
   complete_all (seq 0 (length futures)) futures') w.

(** Waiting on a future: [f.exception()] and [f.result()] block until the
    task is done. *)
Definition future_outcome (f : Future) : M (outcome CrawlResult) :=
  match f with
  | Done o => mret o
  | Pending t => run_coroutine t
  end.

(** Body of the report loop, lines 116-137. *)
Definition report (sites : list Website) (output : option string)
    (i : nat) (f : Future) : M unit :=
  match sites !! i with
  | None => raise (Exc "IndexError")
  | Some site_i =>
      print (MsgHeader site_i);;
      o ← future_outcome f;
      match o with
      | Raised e => print (MsgTaskError e)
      | Returned res =>
          print (MsgDebugInfo (logs (debug_info res)));;
          print (MsgElapsed (execution_time (debug_info res)));;
          match data res with
          | Some d =>
              print MsgSuccess;;
              let j := json d in
              print (MsgJson j);;
              if PyStr.truthy_opt output then
                let output_path :=
                  PyPath.of_str
                    (replace_sub "{site}" (value site_i) 0 (default "" output)) in
                mkdir (PyPath.parent output_path);;
                write_text output_path j;;
                print (MsgSaved output_path)
              else mret tt
          | None =>
              print MsgFailed;;
              if PyStr.truthy (error (debug_info res))
              then print (MsgError (error (debug_info res)))
              else mret tt
          end
      end
  end.

(** [_crawl], lines 91-137. *)
Definition _crawl (sites : list Website) (input : CrawlerInput)
    (output proxy : option string) (timeout retry : Z) : M unit :=
  let classes := map (get_crawler_compat env) sites in
  client ← AsyncWebClient_new
    (or_str proxy
       (if config_use_proxy env then Some (config_proxy env) else None))
    retry timeout;
  BrowserProvider_new;;
  let futures := map (λ c, submit (mkCoroutine c client input)) classes in
  futures ← wait_all futures;
  for_enumerate 0 futures (report sites output).

(** [Language(s)]: lookup of an enumeration member by value. *)
Definition Language_of (s : string) : M Language :=
  if is_language env s then mret (mkLanguage s)
  else raise (Exc (s +:+ " is not a valid Language")).

Definition or_default (s d : string) : string :=
  if PyStr.truthy s then s else d.

(** [main], lines 33-88, the callback of the root command. *)
Definition main (invoked_subcommand : option string)
    (sites : option (list Website))
    (number appoint_url : string) (file_path : option string)
    (short_number mosaic appoint_number language org_language : string)
    (output proxy : option string) (timeout retry : Z) : M unit :=
  match invoked_subcommand with
  | Some _ => mret tt
  | None =>
      match sites with
      | None =>
          print MsgNoSite;;
          print MsgAvailableSites;;
          for_enumerate 1 (websites env)
            (λ i available_site, print (MsgSiteItem i available_site));;
          raise (TyperExit 1)
      | Some sites =>
          language ← Language_of (or_default language "undefined");
          org_language ← Language_of (or_default org_language "undefined");
          let crawler_input :=
            mkCrawlerInput number appoint_url file_path short_number mosaic
              appoint_number language org_language in
          if negb (PyStr.truthy number || PyStr.truthy appoint_url) then
            print MsgNeedNumberOrUrl;;
            raise (TyperExit 1)
          else
            _crawl sites crawler_input output proxy timeout retry
      end
  end.

(** ** Single-URL fetch *)

(** The loop of [_detect_site_from_url], lines 192-195. *)
Fixpoint detect_loop (items : list (string * Website)) (url_lower : string)
    : option Website :=
  match items with
  | [] => None
  | (keyword, site) :: items' =>
      if PyStr.contains (str_lower env keyword) url_lower then Some site
      else detect_loop items' url_lower
  end.

(** [_detect_site_from_url], lines 188-195. *)
Definition _detect_site_from_url (url : string) : option Website :=
  let url_lower := str_lower env url in
  detect_loop (WEB_DIC env) url_lower.

(** Modelled from the spec: [CrawlerInput.empty()], the factory of an
    input with every field empty and both languages "undefined". *)
Definition CrawlerInput_empty : CrawlerInput :=
  mkCrawlerInput "" "" None "" "" ""
    (mkLanguage "undefined") (mkLanguage "undefined").

Definition set_appoint_url (i : CrawlerInput) (url : string) : CrawlerInput :=
  mkCrawlerInput (number i) url (file_path i) (short_number i) (mosaic i)
    (appoint_number i) (language i) (org_language i).

(** The three strategy branches of [_fetch_async], lines 239-267: the
    pair [(html, error)]. *)
Definition fetch_detail_pair (async_client : AsyncWebClient) (url : string)
    (website : option Website) (use_browser : bool)
    : M (option string * string) :=
  match website with
  | Some website =>
      match get_crawler env website with
      | None =>
          print (MsgCrawlerNotFound (value website));;
          raise (SystemExit 1)
      | Some crawler_class =>
          let base_url := get_site_url env website in
          browser ← (if use_browser
                     then b ← get_browser; mret (Some b)
                     else mret None);
          let crawler_input := set_appoint_url CrawlerInput_empty url in
          call (_fetch_detail crawler_class async_client base_url browser
                  crawler_input url)
      end
  | None =>
      if use_browser then
        browser ← get_browser;
        try_except
          (html ← call (page_content env browser url);
           mret (Some html, ""))
          (λ e, mret (None, exn_str e))
      else
        call (get_text env async_client url)
  end.

(** The head of [_fetch_async], lines 212-230: the client options are
    resolved and announced, the client and the browser provider are
    created. *)
Definition fetch_setup (url : string) (website : option Website)
    (proxy : option string) (timeout retry : Z) : M AsyncWebClient :=
  let client_proxy :=
    or_str proxy
      (if config_use_proxy env then Some (config_proxy env) else None) in
  let client_timeout := or_int timeout (config_timeout env) in
  let client_retry := or_int retry (config_retry env) in
  print (MsgFetching url);;
  match website with
  | Some s => print (MsgSiteType (value s))
  | None => mret tt
  end;;
  (if PyStr.truthy_opt client_proxy
   then print (MsgProxy (default "" client_proxy))
   else mret tt);;
  async_client ← AsyncWebClient_new client_proxy client_retry client_timeout;
  BrowserProvider_new;;
  mret async_client.

(** The body of the [try] of [_fetch_async], lines 233-288: fetch, then
    either report the captured error and return, or save the page.  The
    progress spinner is not part of the model. *)
Definition fetch_and_save (async_client : AsyncWebClient) (url : string)
    (website : option Website) (use_browser : bool)
    (output_path number : option string) (base_dir : string) : M unit :=
  '(html, error) ← fetch_detail_pair async_client url website use_browser;
  match html with
  | None => print (MsgFetchFailed error)
  | Some html =>
      let output_file :=
        _determine_output_path output_path url website number base_dir in
      mkdir (PyPath.parent output_file);;
      write_text output_file html;;
      print MsgFetchOk;;
      print (MsgSavedTo output_file);;
      print (MsgSize (String.length html))
  end.

(** [_fetch_async], lines 198-294. *)
Definition _fetch_async (url : string) (website : option Website)
    (use_browser : bool) (output_path number : option string)
    (base_dir : string) (proxy : option string) (timeout retry : Z)
    : M unit :=
  async_client ← fetch_setup url website proxy timeout retry;
  try_finally
    (try_except
       (fetch_and_save async_client url website use_browser
          output_path number base_dir)
       (λ e, print (MsgException (exn_str e));; raise (TyperExit 1)))
    close.

(** [fetch], lines 144-174. *)
Definition fetch (url : string) (site : option Website) (use_browser : bool)
    (output number : option string) (base_dir : string)
    (proxy : option string) (timeout retry : Z) : M unit :=
  site ← match site with
         | Some s => mret (Some s)
         | None =>
             let site := _detect_site_from_url url in
             match site with
             | Some s => print (MsgAutoDetected s)
             | None => mret tt
             end;;
             mret site
         end;
  _fetch_async url site use_browser output number base_dir proxy timeout retry.

End Model.

Arguments CrawlerClass : clear implicits.
Arguments Env : clear implicits.
Arguments World : clear implicits.
Arguments Coroutine : clear implicits.
Arguments Future : clear implicits.

(** ** Observations on traces *)

(** The console output of a trace. *)
Definition prints (tr : list Event) : list Msg :=
  omap (λ e, match e with EvPrint m => Some m | _ => None end) tr.


Definition is_request (e : Event) : bool :=
  match e with EvGetBrowser => true | _ => false end.

Definition is_launch (e : Event) : bool :=
  match e with EvLaunch _ => true | _ => false end.

Definition is_close (e : Event) : bool :=
  match e with EvClose => true | _ => false end.

(** Creation of an HTTP client or of a browser resource. *)
Definition is_resource (e : Event) : bool :=
  match e with
  | EvClientCreate _ | EvProviderCreate | EvGetBrowser | EvLaunch _ => true
  | _ => false
  end.

(** A file-system effect. *)
Definition is_fs (e : Event) : bool :=
  match e with EvMkdir _ | EvWrite _ _ => true | _ => false end.

Definition count (P : Event → bool) (tr : list Event) : nat :=
  length (List.filter P tr).

(** Python truthiness of [html], and the contract of the pair as the
    specification words it: [html] is non-empty exactly when [error] is
    empty. *)
Definition html_xor_error (p : option string * string) : Prop :=
  PyStr.truthy_opt (fst p) = true ↔ snd p = "".

(** A URL without path segments: nothing is left once the slashes around
    it are stripped. *)
Definition no_path_segments (url : string) : Prop :=
  PyStr.strip "/" url = "".

(** The substring relation, as the specification words it. *)
Definition occurs_in (kw s : string) : Prop :=
  ∃ before after, s = before +:+ kw +:+ after.

(** The keyword of an entry of the detection table matches the URL: its
    lower-case form occurs in the lower-cased URL. *)
Definition hit {Net} (env : Env Net) (url : string)
    (entry : string * Website) : Prop :=
  occurs_in (str_lower env entry.1) (str_lower env url).


Definition is_pending {Net} (f : Future Net) : bool :=
  match f with Pending _ => true | Done _ => false end.

(** Number of futures whose task has not run yet. *)
Definition pending {Net} (futures : list (Future Net)) : nat :=
  length (List.filter is_pending futures).

(** What a future may hold for the coroutine [t] it was created for: it is
    still pending, or it holds an outcome of running [t]. *)
Definition future_of {Net} (env : Env Net) (t : Coroutine Net)
    (f : Future Net) : Prop :=
  f = Pending t ∨ ∃ o w, f = Done o ∧ (run_coroutine env t w).1 = Ok o.

(** The future number [i] is done. *)
Definition done_at {Net} (futures : list (Future Net)) (i : nat) : Prop :=
  ∃ o, futures !! i = Some (Done o).

(** The outcome [o] came from running the coroutine [t]. *)
Definition outcome_of {Net} (env : Env Net) (t : Coroutine Net)
    (o : outcome CrawlResult) : Prop :=
  ∃ w, (run_coroutine env t w).1 = Ok o.

(** The browser provider still has to launch a session: 1 if none is
    cached, 0 otherwise. *)
Definition to_launch {Net} (w : World Net) : nat :=
  match session w with Some _ => 0 | None => 1 end.

(** [n] tasks ran between [w] and [w']: they requested the browser [n]
    times, launched it no more often than that and only where none was
    cached, and did nothing else to the trace, the files and the
    schedule. *)
Definition tasks_ran {Net} (n : nat) (w w' : World Net) : Prop :=
  ∃ es, trace w' = trace w ++ es
        ∧ Forall (λ e, is_request e || is_launch e = true) es
        ∧ count is_request es = n
        ∧ (count is_launch es ≤ n)%nat
        ∧ count is_launch es + to_launch w' = to_launch w
        ∧ files w' = files w ∧ dirs w' = dirs w ∧ sched w' = sched w.


(** The world [w] after the console lines [ms] were printed and nothing
    else happened. *)
Definition printed {Net} (ms : list Msg) (w : World Net) : World Net :=
  mkWorld (trace w ++ (EvPrint <$> ms)) (session w) (files w) (dirs w)
    (net w) (sched w).

(** From [w] to [w'] the trace grew by events that all satisfy [Q], and
    files and directories changed only if file-system events are among
    them. *)
Definition evolves {Net} (Q : Event → Prop) (w w' : World Net) : Prop :=
  ∃ es, trace w' = trace w ++ es
        ∧ Forall Q es
        ∧ (Forall (λ e, is_fs e = false) es →
           files w' = files w ∧ dirs w' = dirs w).

(** Whatever its result, the computation [m] only emits events that
    satisfy [Q]. *)
Definition emits {Net A} (Q : Event → Prop) (m : @M Net A) : Prop :=
  ∀ w, evolves Q w (m w).2.

(** The report loop ran between [w] and [w'] and printed [ms]: apart from
    console output only files were written. *)
Definition reported {Net} (ms : list Msg) (w w' : World Net) : Prop :=
  ∃ es, trace w' = trace w ++ es
        ∧ prints es = ms
        ∧ Forall (λ e, is_resource e || is_close e = false) es
        ∧ session w' = session w ∧ net w' = net w.

(** The console block that reports one site. *)
Definition report_lines (output : option string) (s : Website)
    (o : outcome CrawlResult) : list Msg :=
  MsgHeader s ::
  match o with
  | Raised e => [MsgTaskError e]
  | Returned res =>
      MsgDebugInfo (logs (debug_info res)) ::
      MsgElapsed (execution_time (debug_info res)) ::
      match data res with
      | Some d =>
          MsgSuccess :: MsgJson (json d) ::
          (if PyStr.truthy_opt output
           then [MsgSaved (PyPath.of_str
                   (replace_sub "{site}" (value s) 0 (default "" output)))]
           else [])
      | None =>
          MsgFailed ::
          (if PyStr.truthy (error (debug_info res))
           then [MsgError (error (debug_info res))] else [])
      end
  end.

(** The site component of a derived path: the site's name if the site is
    known, the empty string otherwise. *)
Definition site_name (site : option Website) : string :=
  match site with
  | Some s => value s
  | None => ""
  end.

(** ** A small concrete environment

    Two sites; the outside world is a counter of the requests made. *)

Module Sample.

Definition siteA : Website := mkWebsite "javbus".
Definition siteB : Website := mkWebsite "javdb".

Definition payload : Data := mkData "{'title': 'x'}".

Definition ok_result : CrawlResult :=
  mkCrawlResult (Some payload) (mkDebugInfo ["GET /search/ABC-123"] 120 "").

(** The strategy of [siteA] succeeds and never looks at the browser. *)
Definition crawlerA : CrawlerClass nat :=
  mkCrawlerClass siteA
    (λ _ _ _ _ n, (Returned ok_result, S n))
    (λ _ _ _ _ _ n, (Returned (Some "<html>A</html>", ""), S n)).

(** The strategy of [siteB] raises. *)
Definition crawlerB : CrawlerClass nat :=
  mkCrawlerClass siteB
    (λ _ _ _ _ n, (Raised "boom", S n))
    (λ _ _ _ _ _ n, (Returned (None, "HTTP 404"), S n)).

Definition env : Env nat :=
  mkEnv "" false 10 3
    (λ s, "https://" +:+ value s +:+ ".example")
    [siteA; siteB]
    (λ s, String.eqb s "undefined" || String.eqb s "zh_cn")
    [("javbus", siteA); ("JavDB", siteB)]
    PyStr.lower
    (λ s, if String.eqb (value s) "javbus" then crawlerA else crawlerB)
    (λ s, if String.eqb (value s) "javbus" then Some crawlerA else None)
    (λ _ url n,
       if PyStr.contains "down" url
       then (Returned (None, "timeout"), S n)
       else (Returned (Some "<html>ok</html>", ""), S n))
    (λ n, (Returned (BrowserSession n), S n))
    (λ _ url n,
       if PyStr.contains "bad" url
       then (Raised "", S n)
       else (Returned "<html>rendered</html>", S n)).

(** A fresh world in which the task of the second site completes first. *)
Definition w0 : World nat := mkWorld [] None ∅ ∅ 0 [1; 0].

End Sample.

(** ** Further observations *)

(** The character [c] occurs in [s]. *)
Fixpoint has_char (c : ascii) (s : string) : bool :=
  match s with
  | EmptyString => false
  | String a s' => Ascii.eqb a c || has_char c s'
  end.

(** The file name that [_determine_output_path] derives from a URL, lines
    312-317. *)
Definition url_filename (url : string) : string :=
  PyStr.replace "&" "_"
    (PyStr.replace "?" "_"
       (PyStr.replace "=" "_"
          (List.last (PyStr.split "/" (PyStr.strip "/" url)) "")))
  +:+ ".html".

(** The HTTP clients created along a trace, in order. *)
Definition clients (tr : list Event) : list AsyncWebClient :=
  omap (λ e, match e with EvClientCreate c => Some c | _ => None end) tr.

Definition is_provider (e : Event) : bool :=
  match e with EvProviderCreate => true | _ => false end.

(** The proxy a command hands to its client: the option if it is a
    non-empty string, else the configured proxy if proxies are enabled. *)
Definition effective_proxy {Net} (env : Env Net) (proxy : option string)
    : option string :=
  or_str proxy (if config_use_proxy env then Some (config_proxy env) else None).

(** The path the report loop writes the result of site [s] to. *)
Definition result_path (output : option string) (s : Website) : PyPath.Path :=
  PyPath.of_str (replace_sub "{site}" (value s) 0 (default "" output)).

(** What reporting the outcome [o] of site [s] does to the files. *)
Definition persist (output : option string) (fs : gmap string string)
    (so : Website * outcome CrawlResult) : gmap string string :=
  match so.2 with
  | Returned res =>
      match data res with
      | Some d =>
          if PyStr.truthy_opt output
          then <[PyPath.to_str (result_path output so.1) := json d]> fs
          else fs
      | None => fs
      end
  | Raised _ => fs
  end.






(** The sample environment on a machine where the browser cannot be
    launched. *)
Module Broken.

Definition env : Env nat :=
  mkEnv (config_proxy Sample.env) (config_use_proxy Sample.env)
    (config_timeout Sample.env) (config_retry Sample.env)
    (get_site_url Sample.env) (websites Sample.env) (is_language Sample.env)
    (WEB_DIC Sample.env) (str_lower Sample.env)
    (get_crawler_compat Sample.env) (get_crawler Sample.env)
    (get_text Sample.env)
    (λ n, (Raised "no browser", n))
    (page_content Sample.env).

End Broken.

(** * Properties *)

(** ** Strings and paths *)

Lemma append_cons (a : ascii) (s r : string) :
  String a s +:+ r = String a (s +:+ r).
Proof. reflexivity. Qed.

Lemma append_nil (r : string) : "" +:+ r = r.
Proof. reflexivity. Qed.

Lemma prefix_spec (p s : string) :
  String.prefix p s = true ↔ ∃ r, s = p +:+ r.
Proof.
  revert s. induction p as [|a p IH]; intros s.
  - split; [intros _; by exists s | by destruct s].
  - destruct s as [|b s]; simpl.
    + split; [done | intros [r Hr]; discriminate].
    + destruct (ascii_dec a b) as [->|Hne].
      * rewrite IH. split; intros [r Hr]; exists r;
          rewrite append_cons in *; congruence.
      * split; [done | intros [r Hr]; rewrite append_cons in Hr; congruence].
Qed.

Lemma contains_unfold (needle hay : string) :
  PyStr.contains needle hay =
  if String.prefix needle hay then true
  else match hay with
       | EmptyString => false
       | String _ hay' => PyStr.contains needle hay'
       end.
Proof. by destruct hay. Qed.

(** [needle in hay] is the substring relation. *)
Lemma contains_spec (needle hay : string) :
  PyStr.contains needle hay = true ↔ occurs_in needle hay.
Proof.
  split.
  - induction hay as [|a hay IH]; rewrite contains_unfold.
    + destruct (String.prefix needle "") eqn:Hp; [|done].
      intros _. apply prefix_spec in Hp as [r Hr]. by exists "", r.
    + destruct (String.prefix needle (String a hay)) eqn:Hp.
      * intros _. apply prefix_spec in Hp as [r Hr]. by exists "", r.
      * intros H. destruct (IH H) as (b & c & ->).
        by exists (String a b), c.
  - intros (b & c & ->). induction b as [|x b IH]; rewrite contains_unfold.
    + rewrite append_nil.
      assert (String.prefix needle (needle +:+ c) = true) as ->
        by (apply prefix_spec; by exists c).
      done.
    + rewrite append_cons.
      by destruct (String.prefix needle _).
Qed.

Lemma split_nonempty (c : ascii) (s : string) : PyStr.split c s ≠ [].
Proof.
  destruct s as [|a s]; simpl; [done |].
  destruct (Ascii.eqb a c); [done |].
  by destruct (PyStr.split c s).
Qed.

Lemma joinpath_relative (p : PyPath.Path) (s : string) :
  PyStr.truthy (PyPath.path_root s) = false →
  p </> s = PyPath.mkPath (PyPath.root p) (PyPath.parts p ++ PyPath.path_components s).
Proof. unfold PyPath.joinpath. by intros ->. Qed.

Lemma joinpath_empty (p : PyPath.Path) : p </> "" = p.
Proof.
  unfold PyPath.joinpath; simpl. rewrite app_nil_r. by destruct p.
Qed.

(** When no explicit path is given, the path is
    [base_dir / (site name or "") / filename]. *)
Lemma determine_output_path_layout output_path url site number base_dir :
  PyStr.truthy_opt output_path = false →
  ∃ filename,
    _determine_output_path output_path url site number base_dir
    = PyPath.of_str base_dir </> site_name site </> filename
    ∧ filename =
        if PyStr.truthy_opt number then default "" number +:+ ".html"
        else PyStr.replace "&" "_" (PyStr.replace "?" "_" (PyStr.replace "=" "_"
               (List.last (PyStr.split "/" (PyStr.strip "/" url)) "")))
             +:+ ".html".
Proof.
  intros Hout. unfold _determine_output_path. rewrite Hout.
  eexists. split.
  - destruct site as [s|]; simpl; [reflexivity |].
    by rewrite joinpath_empty.
  - destruct (PyStr.truthy_opt number); [done |].
    pose proof (split_nonempty "/" (PyStr.strip "/" url)).
    by destruct (PyStr.split "/" (PyStr.strip "/" url)).
Qed.

(** C6: when no explicit output path and no number are given and the URL has
    no path segments, the derived file name is [".html"]: the path is
    [base_dir / (site name or "") / ".html"], which is not the path with the
    fallback name ["detail.html"]. *)
Theorem determine_output_path_no_segments
    output_path url site number base_dir :
  PyStr.truthy_opt output_path = false →
  PyStr.truthy_opt number = false →
  no_path_segments url →
  _determine_output_path output_path url site number base_dir
  = PyPath.of_str base_dir </> site_name site </> ".html"
  ∧ _determine_output_path output_path url site number base_dir
  ≠ PyPath.of_str base_dir </> site_name site </> "detail.html".
Proof.
  intros Hout Hnum Hurl.
  destruct (determine_output_path_layout output_path url site number base_dir Hout)
    as (filename & -> & ->).
  rewrite Hnum. unfold no_path_segments in Hurl. rewrite Hurl. simpl.
  split; [done |].
  rewrite !(joinpath_relative _ ".html"), !(joinpath_relative _ "detail.html")
    by done.
  intros Heq. injection Heq as Heq. by apply app_inv_head in Heq.
Qed.

Lemma determine_output_path_no_segments_witness :
  PyStr.truthy_opt None = false ∧ no_path_segments "/" ∧
  PyPath.to_str (_determine_output_path None "/" (Some Sample.siteA) None
                   "tests/crawlers/data")
  = "tests/crawlers/data/javbus/.html".
Proof.
  split; [reflexivity |]. split; [reflexivity |].
  by rewrite (proj1 (determine_output_path_no_segments None "/" (Some Sample.siteA)
                       None "tests/crawlers/data" eq_refl eq_refl eq_refl)).
Defined.

(** A URL that is a host only has no path segment either; its file name
    comes from the host. *)
Example determine_output_path_host_only :
  PyPath.to_str (_determine_output_path None "https://example.com/" None None
                   "tests/crawlers/data")
  = "tests/crawlers/data/example.com.html".
Proof. reflexivity. Qed.

(** The example of the specification: a final segment with [=], [?] and
    [&] and a known site. *)
Example determine_output_path_example :
  PyPath.to_str (_determine_output_path None "https://x.example/v/ABC=123?x=1&y"
     (Some (mkWebsite "foo")) None "tests/crawlers/data")
  = "tests/crawlers/data/foo/ABC_123_x_1_y.html".
Proof. reflexivity. Qed.

(** ** Site detection *)

Section Detection.
Context {Net : Type} (env : Env Net).

Lemma detect_loop_some items url_lower s :
  detect_loop env items url_lower = Some s ↔
  ∃ pre kw post,
    items = pre ++ (kw, s) :: post
    ∧ occurs_in (str_lower env kw) url_lower
    ∧ Forall (λ e, ¬ occurs_in (str_lower env e.1) url_lower) pre.
Proof.
  induction items as [|[k v] items IH]; simpl.
  - split; [done | intros (pre & kw & post & H & _); by destruct pre].
  - destruct (PyStr.contains (str_lower env k) url_lower) eqn:Hc.
    + apply contains_spec in Hc. split.
      * intros [= ->]. by exists [], k, items.
      * intros (pre & kw & post & H & Hkw & Hpre).
        destruct pre as [|e pre]; simplify_eq/=; [done |].
        apply Forall_cons in Hpre as [Hno _]. by destruct Hno.
    + assert (¬ occurs_in (str_lower env k) url_lower) as Hno.
      { intros H. apply contains_spec in H. congruence. }
      rewrite IH. split.
      * intros (pre & kw & post & -> & Hkw & Hpre).
        exists ((k, v) :: pre), kw, post. split_and!; [done | done |].
        by apply Forall_cons.
      * intros (pre & kw & post & H & Hkw & Hpre).
        destruct pre as [|e pre]; simplify_eq/=; [done |].
        apply Forall_cons in Hpre as [_ Hpre].
        by exists pre, kw, post.
Qed.

Lemma detect_loop_none items url_lower :
  detect_loop env items url_lower = None ↔
  Forall (λ e, ¬ occurs_in (str_lower env e.1) url_lower) items.
Proof.
  induction items as [|[k v] items IH]; simpl.
  - split; [by constructor | done].
  - destruct (PyStr.contains (str_lower env k) url_lower) eqn:Hc.
    + apply contains_spec in Hc. split; [done |].
      intros [Hno _]%Forall_cons. by destruct Hno.
    + rewrite IH. split.
      * intros H. apply Forall_cons. split; [| done].
        simpl. intros Ho. apply contains_spec in Ho. congruence.
      * by intros [_ H]%Forall_cons.
Qed.

(** C7: detection returns the site of the first entry of the table, in
    table order, whose lower-cased keyword is a substring of the
    lower-cased URL, and returns [None] exactly when no keyword matches. *)
Theorem detect_site_first_match (url : string) :
  (∀ s, _detect_site_from_url env url = Some s ↔
        ∃ pre kw post,
          WEB_DIC env = pre ++ (kw, s) :: post
          ∧ hit env url (kw, s)
          ∧ Forall (λ e, ¬ hit env url e) pre)
  ∧ (_detect_site_from_url env url = None ↔
     Forall (λ e, ¬ hit env url e) (WEB_DIC env)).
Proof.
  unfold _detect_site_from_url, hit. split.
  - intros s. apply detect_loop_some.
  - apply detect_loop_none.
Qed.

End Detection.

Example detect_site_example :
  _detect_site_from_url Sample.env "https://www.JAVDB.com/v/abc" = Some Sample.siteB
  ∧ _detect_site_from_url Sample.env "https://unknown.example/" = None.
Proof. split; reflexivity. Qed.

(** ** Traces *)

Lemma prints_app (a b : list Event) : prints (a ++ b) = prints a ++ prints b.
Proof. apply omap_app. Qed.


Lemma count_app (P : Event → bool) (a b : list Event) :
  count P (a ++ b) = count P a + count P b.
Proof. unfold count. by rewrite List.filter_app, length_app. Qed.

Lemma count_zero (P : Event → bool) (es : list Event) :
  Forall (λ e, P e = false) es → count P es = 0.
Proof.
  unfold count. induction 1 as [|e es He _ IH]; simpl; [done |]. by rewrite He.
Qed.

Lemma count_zero_inv (P : Event → bool) (es : list Event) :
  count P es = 0 → Forall (λ e, P e = false) es.
Proof.
  unfold count. induction es as [|e es IH]; simpl; [by constructor |].
  destruct (P e) eqn:He; simpl; [done |]. intros H. constructor; auto.
Qed.

Lemma count_zero_of (P : Event → bool) (Q : Event → Prop) (es : list Event) :
  Forall Q es → (∀ e, Q e → P e = false) → count P es = 0.
Proof. intros Hall HQ. apply count_zero. by eapply Forall_impl. Qed.

Lemma prints_nil_of (Q : Event → Prop) (es : list Event) :
  Forall Q es → (∀ m, ¬ Q (EvPrint m)) → prints es = [].
Proof.
  intros Hall HQ. induction Hall as [|e es He _ IH]; [done |].
  destruct e; simpl; try done. by destruct (HQ m).
Qed.

Section Dispatch.
Context {Net : Type} (env : Env Net).
Implicit Types (w : World Net) (t : Coroutine Net) (f : Future Net).

Lemma tasks_ran_refl w : tasks_ran 0 w w.
Proof.
  exists []. rewrite app_nil_r. by split_and!.
Qed.

Lemma tasks_ran_trans n m w1 w2 w3 :
  tasks_ran n w1 w2 → tasks_ran m w2 w3 → tasks_ran (n + m) w1 w3.
Proof.
  intros (es1 & Ht1 & Ha1 & Hr1 & Hb1 & Hl1 & Hf1 & Hd1 & Hs1)
         (es2 & Ht2 & Ha2 & Hr2 & Hb2 & Hl2 & Hf2 & Hd2 & Hs2).
  exists (es1 ++ es2). rewrite !count_app. split_and!.
  - by rewrite Ht2, Ht1, app_assoc.
  - by apply Forall_app.
  - lia.
  - lia.
  - lia.
  - congruence.
  - congruence.
  - congruence.
Qed.

(** A task runs to a terminal state: it requests the browser once and
    its outcome, an exception included, goes to its future. *)
Lemma run_coroutine_spec t w :
  ∃ o w', run_coroutine env t w = (Ok o, w') ∧ tasks_ran 1 w w'.
Proof.
  unfold run_coroutine, task, get_browser, tasks_ran.
  destruct w as [tr ses fl ds n sc]. simpl.
  unfold mbind, mret, M_bind, M_ret, emit, call, set_session. simpl.
  destruct ses as [b|]; simpl.
  - destruct (run _ _ _ _ _ _) as [[r|msg] n']; simpl;
      eexists _, _; (split; [reflexivity |]);
      exists [EvGetBrowser]; simpl; split_and!; try done;
        first [by repeat constructor | unfold count; simpl; lia].
  - destruct (launch env n) as [[b|msg] n1]; simpl.
    + destruct (run _ _ _ _ _ _) as [[r|msg] n']; simpl;
        eexists _, _; (split; [reflexivity |]);
        exists [EvGetBrowser; EvLaunch b]; simpl;
        rewrite <- ?app_assoc; split_and!; try done;
        first [by repeat constructor | unfold count; simpl; lia].
    + eexists _, _; (split; [reflexivity |]).
      exists [EvGetBrowser]; simpl; split_and!; try done;
        first [by repeat constructor | unfold count; simpl; lia].
Qed.

Lemma pending_insert_done futures i t o :
  futures !! i = Some (Pending t) →
  pending futures = S (pending (<[i := Done o]> futures)).
Proof.
  unfold pending. revert i.
  induction futures as [|f futures IH]; intros [|i] Hi; simplify_eq/=.
  - done.
  - specialize (IH i Hi). destruct f; simpl; lia.
Qed.

Lemma complete_spec i futures coros w :
  Forall2 (future_of env) coros futures →
  ∃ futures' w',
    complete env i futures w = (Ok futures', w')
    ∧ Forall2 (future_of env) coros futures'
    ∧ (pending futures' ≤ pending futures)%nat
    ∧ tasks_ran (pending futures - pending futures') w w'
    ∧ ((i < length futures)%nat → done_at futures' i)
    ∧ (∀ j, done_at futures j → done_at futures' j).
Proof.
  intros Hall. unfold complete.
  destruct (futures !! i) as [[t|o]|] eqn:Hi.
  - destruct (run_coroutine_spec t w) as (o & w' & Hrun & Hran).
    unfold mbind, M_bind, mret, M_ret. rewrite Hrun.
    exists (<[i := Done o]> futures), w'.
    rewrite (pending_insert_done futures i t o Hi).
    replace (S _ - _) with 1 by lia.
    split_and!; try done.
    + destruct (Forall2_lookup_r _ _ _ _ _ Hall Hi) as (t' & Ht' & Hof).
      rewrite <- (list_insert_id coros i t' Ht').
      apply Forall2_insert; [done |].
      destruct Hof as [[= ->] | (? & ? & ? & _)]; [| done].
      right. exists o, w. by rewrite Hrun.
    + lia.
    + intros Hlt. exists o. by apply list_lookup_insert_eq.
    + intros j [o' Hj]. exists o'.
      rewrite list_lookup_insert_ne; [done |]. congruence.
  - exists futures, w. replace (_ - _) with 0 by lia.
    split_and!; try done; [apply tasks_ran_refl | intros _; by exists o].
  - exists futures, w. replace (_ - _) with 0 by lia.
    split_and!; try done; [apply tasks_ran_refl |].
    intros Hlt. apply lookup_ge_None in Hi. lia.
Qed.

Lemma complete_all_spec order futures coros w :
  Forall2 (future_of env) coros futures →
  ∃ futures' w',
    complete_all env order futures w = (Ok futures', w')
    ∧ Forall2 (future_of env) coros futures'
    ∧ (pending futures' ≤ pending futures)%nat
    ∧ tasks_ran (pending futures - pending futures') w w'
    ∧ (∀ i, i ∈ order → (i < length futures)%nat → done_at futures' i)
    ∧ (∀ j, done_at futures j → done_at futures' j).
Proof.
  revert futures w. induction order as [|i order IH]; intros futures w Hall.
  - exists futures, w. replace (_ - _) with 0 by lia.
    split_and!; try done; [apply tasks_ran_refl |].
    intros i Hi. by apply elem_of_nil in Hi.
  - destruct (complete_spec i futures coros w Hall)
      as (fs1 & w1 & Hc & Hall1 & Hle1 & Hran1 & Hdone1 & Hkeep1).
    destruct (IH fs1 w1 Hall1)
      as (fs2 & w2 & Hc2 & Hall2 & Hle2 & Hran2 & Hdone2 & Hkeep2).
    exists fs2, w2. simpl. unfold mbind, M_bind. rewrite Hc.
    split_and!; try done.
    + lia.
    + replace (pending futures - pending fs2)
        with ((pending futures - pending fs1) + (pending fs1 - pending fs2))
        by lia.
      by eapply tasks_ran_trans.
    + intros j Hj Hlt. apply elem_of_cons in Hj as [-> | Hj].
      * by apply Hkeep2, Hdone1.
      * apply Hdone2; [done |].
        by rewrite <- (Forall2_length _ _ _ Hall1), (Forall2_length _ _ _ Hall).
    + intros j Hj. by apply Hkeep2, Hkeep1.
Qed.

Lemma all_done (futures : list (Future Net)) :
  (∀ i, (i < length futures)%nat → done_at futures i) →
  ∃ os, futures = Done <$> os.
Proof.
  induction futures as [|f futures IH]; intros Hall.
  - by exists [].
  - destruct (Hall 0) as [o Ho]; [simpl; lia |]. simplify_eq/=.
    destruct IH as [os ->].
    { intros i Hi. destruct (Hall (S i)) as [o' Ho']; [simpl; lia |].
      by exists o'. }
    by exists (o :: os).
Qed.

Lemma pending_submitted (coros : list (Coroutine Net)) :
  pending (Pending <$> coros) = length coros.
Proof.
  unfold pending. induction coros as [|t coros IH]; simpl in *; [done | by f_equal].
Qed.

Lemma pending_done (os : list (outcome CrawlResult)) :
  pending (Done (Net:=Net) <$> os) = 0.
Proof. unfold pending. by induction os. Qed.

(** [wait_all] leaves every future done, each with an outcome of its own
    coroutine, whatever the schedule. *)
Lemma wait_all_spec futures coros w :
  Forall2 (future_of env) coros futures →
  ∃ os w',
    wait_all env futures w = (Ok (Done <$> os), w')
    ∧ Forall2 (outcome_of env) coros os
    ∧ tasks_ran (pending futures) w w'.
Proof.
  intros Hall. unfold wait_all.
  destruct (complete_all_spec (sched w) futures coros w Hall)
    as (fs1 & w1 & Hc1 & Hall1 & Hle1 & Hran1 & _ & _).
  destruct (complete_all_spec (seq 0 (length fs1)) fs1 coros w1 Hall1)
    as (fs2 & w2 & Hc2 & Hall2 & Hle2 & Hran2 & Hdone2 & _).
  assert (length futures = length fs1) as Hlen
    by by rewrite <- (Forall2_length _ _ _ Hall1), (Forall2_length _ _ _ Hall).
  destruct (all_done fs2) as [os ->].
  { intros i Hi. apply Hdone2.
    - apply elem_of_seq. rewrite <- (Forall2_length _ _ _ Hall2) in Hi.
      rewrite (Forall2_length _ _ _ Hall1) in Hi. lia.
    - by rewrite <- (Forall2_length _ _ _ Hall1), (Forall2_length _ _ _ Hall2). }
  exists os, w2. unfold mbind, M_bind. rewrite Hc1, Hlen, Hc2.
  rewrite pending_done in *.
  split_and!; [done | |].
  - rewrite Forall2_fmap_r in Hall2.
    eapply Forall2_impl; [exact Hall2 |].
    intros t o [? | (o' & w' & [= <-] & Hrun)]; [done |]. by exists w'.
  - replace (pending futures)
      with ((pending futures - pending fs1) + (pending fs1 - 0)) by lia.
    by eapply tasks_ran_trans.
Qed.

Lemma reported_refl w : reported [] w w.
Proof. exists []. rewrite app_nil_r. by split_and!. Qed.

Lemma reported_trans m1 m2 w1 w2 w3 :
  reported m1 w1 w2 → reported m2 w2 w3 → reported (m1 ++ m2) w1 w3.
Proof.
  intros (es1 & Ht1 & Hp1 & Ha1 & Hs1 & Hn1) (es2 & Ht2 & Hp2 & Ha2 & Hs2 & Hn2).
  exists (es1 ++ es2). split_and!.
  - by rewrite Ht2, Ht1, app_assoc.
  - by rewrite prints_app, Hp1, Hp2.
  - by apply Forall_app.
  - congruence.
  - congruence.
Qed.

(** One turn of the report loop on a future that is done. *)
Lemma report_spec sites output i s o w :
  sites !! i = Some s →
  ∃ w', report env sites output i (Done o) w = (Ok tt, w')
        ∧ reported (report_lines output s o) w w'.
Proof.
  intros Hs. unfold report, reported, report_lines. rewrite Hs.
  destruct w as [tr ses fl ds n sc].
  unfold mbind, mret, M_bind, M_ret, print, emit, mkdir, write_text,
    future_outcome.
  simpl.
  destruct o as [[[d|] [lg tm er]]|msg]; simpl.
  - destruct (PyStr.truthy_opt output); simpl;
      (eexists; split; [reflexivity |]); simpl;
      rewrite <- !app_assoc; simpl;
      (eexists; split; [reflexivity |]);
      split_and!; try done; by repeat constructor.
  - destruct (PyStr.truthy er); simpl;
      (eexists; split; [reflexivity |]); simpl;
      rewrite <- !app_assoc; simpl;
      (eexists; split; [reflexivity |]);
      split_and!; try done; by repeat constructor.
  - (eexists; split; [reflexivity |]); simpl;
      rewrite <- !app_assoc; simpl;
      (eexists; split; [reflexivity |]);
      split_and!; try done; by repeat constructor.
Qed.

(** The report loop prints one block per site, in the order of [sites]. *)
Lemma report_loop_spec sites output pre ss os w :
  sites = pre ++ ss → length ss = length os →
  ∃ w', for_enumerate (length pre) (Done <$> os) (report env sites output) w
        = (Ok tt, w')
        ∧ reported (concat (zip_with (report_lines output) ss os)) w w'.
Proof.
  revert pre ss w. induction os as [|o os IH]; intros pre ss w Hsites Hlen.
  - destruct ss; [| done]. exists w. split; [done | apply reported_refl].
  - destruct ss as [|s ss]; [done |]. simplify_eq/=.
    destruct (report_spec (pre ++ s :: ss) output (length pre) s o w)
      as (w1 & Hr1 & Hrep1); [by apply list_lookup_middle |].
    destruct (IH (pre ++ [s]) ss w1) as (w2 & Hr2 & Hrep2);
      [by rewrite <- app_assoc | done |].
    exists w2. unfold mbind, M_bind. rewrite Hr1.
    rewrite length_app in Hr2. simpl in Hr2.
    replace (length pre + 1) with (S (length pre)) in Hr2 by lia.
    split; [done |].
    change (reported (report_lines output s o
              ++ concat (zip_with (report_lines output) ss os)) w w2).
    by eapply reported_trans.
Qed.

(** The three phases of [_crawl]: the client and the provider are
    created, every task runs once, every site is reported in order. *)
Lemma crawl_spec sites input output proxy timeout retry w :
  let client :=
    mkClient
      (or_str proxy
         (if config_use_proxy env then Some (config_proxy env) else None))
      retry timeout in
  ∃ os w1 w2 w',
    _crawl env sites input output proxy timeout retry w = (Ok tt, w')
    ∧ Forall2 (λ s o, outcome_of env
                 (mkCoroutine (get_crawler_compat env s) client input) o)
        sites os
    ∧ trace w1 = trace w ++ [EvClientCreate client; EvProviderCreate]
    ∧ session w1 = None
    ∧ tasks_ran (length sites) w1 w2
    ∧ reported (concat (zip_with (report_lines output) sites os)) w2 w'.
Proof.
  intros client. unfold _crawl.
  unfold AsyncWebClient_new, BrowserProvider_new.
  unfold mbind at 1 2 3 4 5. unfold M_bind at 1 2 3 4 5.
  unfold mret, M_ret, emit, set_session. simpl. fold client.
  set (w1 := mkWorld _ None _ _ _ _).
  set (coros := (λ c, mkCoroutine c client input)
                  <$> (get_crawler_compat env <$> sites)).
  assert (Forall2 (future_of env) coros (Pending <$> coros)) as Hall.
  { apply Forall2_fmap_r, Forall_Forall2_diag, Forall_forall.
    intros t _. by left. }
  destruct (wait_all_spec (Pending <$> coros) coros w1 Hall)
    as (os & w2 & Hwait & Hos & Hran).
  assert (pending (Pending <$> coros) = length sites) as Hpend.
  { rewrite pending_submitted. unfold coros. by rewrite !length_fmap. }
  rewrite Hpend in Hran.
  assert (length sites = length os) as Hlen.
  { rewrite <- (Forall2_length _ _ _ Hos). unfold coros.
    by rewrite !length_fmap. }
  destruct (report_loop_spec sites output [] sites os w2 eq_refl Hlen)
    as (w' & Hloop & Hrep).
  exists os, w1, w2, w'.
  replace (map (λ c, submit (mkCoroutine c client input))
             (map (get_crawler_compat env) sites))
    with (Pending <$> coros)
    by (unfold coros, submit; by rewrite <- !list_fmap_compose).
  unfold mbind, M_bind. rewrite Hwait. split_and!; try done.
  - unfold coros in Hos. rewrite <- list_fmap_compose in Hos.
    by rewrite Forall2_fmap_l in Hos.
  - unfold w1. simpl. by rewrite <- app_assoc.
Qed.

(** What [_crawl] leaves on the trace. *)
Lemma crawl_trace sites input output proxy timeout retry w :
  ∃ os w',
    _crawl env sites input output proxy timeout retry w = (Ok tt, w')
    ∧ Forall2 (λ s o, ∃ client, outcome_of env
                 (mkCoroutine (get_crawler_compat env s) client input) o)
        sites os
    ∧ prints (trace w')
      = prints (trace w) ++ concat (zip_with (report_lines output) sites os)
    ∧ count is_request (trace w') = count is_request (trace w) + length sites
    ∧ (count is_launch (trace w') ≤ count is_launch (trace w) + 1)%nat
    ∧ (sites = [] → count is_launch (trace w') = count is_launch (trace w))
    ∧ count is_close (trace w') = count is_close (trace w).
Proof.
  destruct (crawl_spec sites input output proxy timeout retry w)
    as (os & w1 & w2 & w' & Hrun & Hos & Ht1 & Hs1 & Hran & Hrep).
  destruct Hran as (es2 & Ht2 & Ha2 & Hr2 & Hb2 & Hl2 & _).
  destruct Hrep as (es3 & Ht3 & Hp3 & Ha3 & _).
  exists os, w'. rewrite Ht3, Ht2, Ht1.
  rewrite !prints_app, !count_app, Hp3, Hr2.
  rewrite (prints_nil_of _ es2 Ha2) by done.
  rewrite (count_zero_of is_request _ es3 Ha3),
    (count_zero_of is_launch _ es3 Ha3),
    (count_zero_of is_close _ es3 Ha3) by (by intros []; simpl).
  rewrite (count_zero_of is_close _ es2 Ha2) by (by intros []; simpl).
  unfold to_launch in Hl2. rewrite Hs1 in Hl2.
  set (created := [EvClientCreate _; EvProviderCreate]).
  change (count is_request created) with 0.
  change (count is_launch created) with 0.
  change (count is_close created) with 0.
  change (prints created) with (@nil Msg).
  split_and!; try done.
  - eapply Forall2_impl; [exact Hos |]. intros s o Ho. eexists. exact Ho.
  - by rewrite !app_nil_r.
  - lia.
  - destruct (session w2); simpl in Hl2; lia.
  - intros ->. simpl in Hb2. lia.
  - lia.
Qed.
End Dispatch.

Section DispatchClaims.
Context {Net : Type} (env : Env Net).
Implicit Types (w : World Net).






End DispatchClaims.


(** C4: [_crawl] never releases the browser.  No dispatch adds a [close]
    to the trace; a dispatch over one site launches the session and leaves
    it running when the command ends. *)
Theorem crawl_never_closes_browser :
  (∀ (Net : Type) (env : Env Net) sites input output proxy timeout retry w,
     count is_close
       (trace (_crawl env sites input output proxy timeout retry w).2)
     = count is_close (trace w))
  ∧ (let w' := (main Sample.env None (Some [Sample.siteA]) "ABC-123" "" None
                  "" "" "" "" "" None None 5 1 Sample.w0).2 in
     count is_launch (trace w') = 1
     ∧ count is_close (trace w') = 0
     ∧ session w' = Some (BrowserSession 0)).
Proof.
  split; [| by vm_compute].
  intros Net env sites input output proxy timeout retry w.
  destruct (crawl_trace env sites input output proxy timeout retry w)
    as (os & w' & -> & _ & _ & _ & _ & _ & Hclose).
  exact Hclose.
Qed.


(** The scenario evaluated: the second task completes first and raises;
    the console shows the block of the first site, then that of the
    second, and the exit code is 0. *)
Example dispatch_scenario :
  let r := main Sample.env None (Some [Sample.siteA; Sample.siteB]) "ABC-123" ""
             None "" "" "" "" "" None None 5 1 Sample.w0 in
  exit_code r.1 = 0%Z
  ∧ prints (trace r.2)
    = [ MsgHeader Sample.siteA; MsgDebugInfo ["GET /search/ABC-123"];
        MsgElapsed 120; MsgSuccess; MsgJson "{'title': 'x'}";
        MsgHeader Sample.siteB; MsgTaskError "boom" ].
Proof. by vm_compute. Qed.

Section Validation.
Context {Net : Type} (env : Env Net).
Implicit Types (w : World Net).

Lemma printed_nil w : printed [] w = w.
Proof. destruct w. unfold printed. simpl. by rewrite app_nil_r. Qed.

Lemma printed_app ms1 ms2 w :
  printed ms2 (printed ms1 w) = printed (ms1 ++ ms2) w.
Proof. unfold printed. simpl. by rewrite fmap_app, app_assoc. Qed.

Lemma count_printed (P : Event → bool) ms w :
  (∀ m, P (EvPrint m) = false) →
  count P (trace (printed ms w)) = count P (trace w).
Proof.
  intros HP. unfold printed. simpl. rewrite count_app.
  rewrite (count_zero P (EvPrint <$> ms)); [lia |].
  apply Forall_fmap, Forall_forall. intros m _. apply HP.
Qed.

Lemma for_enumerate_cons {A} (k : nat) (x : A) (l : list A)
    (body : nat → A → M unit) w :
  for_enumerate k (x :: l) body w
  = match body k x w with
    | (Ok _, w1) => for_enumerate (S k) l body w1
    | (Raise e, w1) => (Raise e, w1)
    end.
Proof. reflexivity. Qed.

(** The list of available sites, lines 62-63. *)
Lemma print_sites_spec (l : list Website) (k : nat) w :
  for_enumerate k l (λ i s, print (MsgSiteItem i s)) w
  = (Ok tt, printed (imap (λ i s, MsgSiteItem (k + i) s) l) w).
Proof.
  revert k w. induction l as [|s l IH]; intros k w.
  - by rewrite printed_nil.
  - rewrite for_enumerate_cons.
    change (print (MsgSiteItem k s) w) with (Ok tt, printed [MsgSiteItem k s] w).
    rewrite IH, printed_app, <- (Nat.add_0_r k) at 1.
    do 2 f_equal. simpl. f_equal.
    apply imap_ext. intros i x _. simpl. f_equal. lia.
Qed.

(** The two validation failures of [main]: it raises after printing. *)
Lemma main_rejects
    sites number appoint_url file_path short_number mosaic
    appoint_number language org_language output proxy timeout retry w :
  sites = None ∨ PyStr.truthy number || PyStr.truthy appoint_url = false →
  ∃ e ms,
    main env None sites number appoint_url file_path short_number mosaic
      appoint_number language org_language output proxy timeout retry w
    = (Raise e, printed ms w)
    ∧ exit_code (Raise (A:=unit) e) = 1%Z.
Proof.
  intros Hbad. unfold main. destruct sites as [sites|].
  - destruct Hbad as [? | Hnone]; [done |]. unfold Language_of.
    destruct (is_language env (or_default language "undefined")).
    + destruct (is_language env (or_default org_language "undefined")).
      * unfold mbind at 1 2. unfold M_bind at 1 2. unfold mret, M_ret.
        rewrite Hnone. by exists (TyperExit 1), [MsgNeedNumberOrUrl].
      * eexists _, []. by rewrite printed_nil.
    + eexists _, []. by rewrite printed_nil.
  - unfold mbind at 1 2. unfold M_bind at 1 2.
    change (print MsgNoSite w) with (Ok tt, printed [MsgNoSite] w).
    unfold mbind at 1. unfold M_bind at 1.
    change (print MsgAvailableSites (printed [MsgNoSite] w))
      with (Ok tt, printed [MsgAvailableSites] (printed [MsgNoSite] w)).
    unfold mbind, M_bind. rewrite print_sites_spec, !printed_app.
    by eexists _, _.
Qed.

(** C8: without [--site], or with neither [--number] nor
    [--appoint-url], the root command ends with exit code 1, and it does
    so before any work: console lines are all it produced, so that no
    HTTP client and no browser provider was created and no browser
    requested or launched. *)
Theorem main_validation_exits_1
    sites number appoint_url file_path short_number mosaic
    appoint_number language org_language output proxy timeout retry w :
  sites = None ∨ PyStr.truthy number || PyStr.truthy appoint_url = false →
  exit_code
    (main env None sites number appoint_url file_path short_number mosaic
       appoint_number language org_language output proxy timeout retry w).1
  = 1%Z
  ∧ (∃ ms,
      (main env None sites number appoint_url file_path short_number mosaic
         appoint_number language org_language output proxy timeout retry w).2
      = printed ms w)
  ∧ count is_resource
      (trace
         (main env None sites number appoint_url file_path short_number mosaic
            appoint_number language org_language output proxy timeout retry
            w).2)
    = count is_resource (trace w).
Proof.
  intros Hbad.
  destruct (main_rejects sites number appoint_url file_path short_number
              mosaic appoint_number language org_language output proxy
              timeout retry w Hbad) as (e & ms & -> & Hcode).
  split_and!; [done | by exists ms |].
  by apply count_printed.
Qed.
End Validation.

Lemma main_validation_exits_1_witness :
  exit_code
    (main Sample.env None None "ABC-123" "" None "" "" "" "" "" None None 5 1
       Sample.w0).1 = 1%Z
  ∧ exit_code
      (main Sample.env None (Some [Sample.siteA]) "" "" None "" "" "" "" ""
         None None 5 1 Sample.w0).1 = 1%Z.
Proof.
  split.
  - apply (main_validation_exits_1 Sample.env None "ABC-123" "" None "" "" ""
             "" "" None None 5%Z 1%Z Sample.w0). by left.
  - apply (main_validation_exits_1 Sample.env (Some [Sample.siteA]) "" "" None
             "" "" "" "" "" None None 5%Z 1%Z Sample.w0). by right.
Defined.

(** ** Events emitted by a computation *)

Section Emits.
Context {Net : Type} (env : Env Net) (Q : Event → Prop).
Implicit Types (w : World Net).

#[local] Instance evolves_preorder : PreOrder (evolves (Net:=Net) Q).
Proof.
  split.
  - intros w. exists []. by rewrite app_nil_r.
  - intros w1 w2 w3 (es1 & Ht1 & Ha1 & Hf1) (es2 & Ht2 & Ha2 & Hf2).
    exists (es1 ++ es2). split_and!.
    + by rewrite Ht2, Ht1, app_assoc.
    + by apply Forall_app.
    + intros [H1 H2]%Forall_app.
      destruct (Hf1 H1), (Hf2 H2). split; congruence.
Qed.

Lemma emits_ret {A} (a : A) : emits (Net:=Net) Q (mret a).
Proof. intros w. reflexivity. Qed.

Lemma emits_raise {A} (e : exn) : emits (Net:=Net) Q (raise (A:=A) e).
Proof. intros w. reflexivity. Qed.

Lemma emits_bind {A B} (m : @M Net A) (f : A → @M Net B) :
  emits Q m → (∀ a, emits Q (f a)) → emits Q (m ≫= f).
Proof.
  intros Hm Hf w. specialize (Hm w). unfold mbind, M_bind.
  destruct (m w) as [[a|e] w1]; simpl in *; [| done].
  etrans; [exact Hm | apply Hf].
Qed.

Lemma emits_emit (e : Event) : Q e → emits (Net:=Net) Q (emit e).
Proof.
  intros He w. exists [e]. simpl. split_and!; [done | by constructor | done].
Qed.

Lemma emits_print (m : Msg) : Q (EvPrint m) → emits (Net:=Net) Q (print m).
Proof. apply emits_emit. Qed.

Lemma emits_set_session (s : option Browser) :
  emits (Net:=Net) Q (set_session s).
Proof. intros w. exists []. simpl. by rewrite app_nil_r. Qed.

Lemma emits_call {A} (f : Net → outcome A * Net) : emits Q (call f).
Proof.
  intros w. exists []. unfold call.
  destruct (f (net w)) as [[a|msg] n]; simpl; by rewrite app_nil_r.
Qed.

Lemma emits_mkdir (p : PyPath.Path) :
  Q (EvMkdir p) → emits (Net:=Net) Q (mkdir p).
Proof.
  intros He w. exists [EvMkdir p]. simpl.
  split_and!; [done | by constructor |].
  by intros [? _]%Forall_cons.
Qed.

Lemma emits_write_text (p : PyPath.Path) (c : string) :
  Q (EvWrite p c) → emits (Net:=Net) Q (write_text p c).
Proof.
  intros He w. exists [EvWrite p c]. simpl.
  split_and!; [done | by constructor |].
  by intros [? _]%Forall_cons.
Qed.

Lemma emits_try_except {A} (body : @M Net A) (handler : exn → @M Net A) :
  emits Q body → (∀ e, emits Q (handler e)) → emits Q (try_except body handler).
Proof.
  intros Hb Hh w. specialize (Hb w). unfold try_except.
  destruct (body w) as [[a|e] w1]; simpl in *; [done |].
  destruct (is_Exception e); [| done].
  etrans; [exact Hb | apply Hh].
Qed.

Lemma emits_try_finally {A} (body : @M Net A) (fin : @M Net unit) :
  emits Q body → emits Q fin → emits Q (try_finally body fin).
Proof.
  intros Hb Hf w. specialize (Hb w). unfold try_finally.
  destruct (body w) as [r w1]. specialize (Hf w1). simpl in *.
  destruct (fin w1) as [[[]|e] w2]; simpl in *; by etrans.
Qed.

Lemma emits_get_browser :
  Q EvGetBrowser → (∀ b, Q (EvLaunch b)) → emits Q (get_browser env).
Proof.
  intros Hreq Hlaunch w. unfold get_browser.
  assert (emits Q (emit EvGetBrowser;;
                   match session w with
                   | Some b => mret b
                   | None =>
                       b ← call (launch env);
                       emit (EvLaunch b);; set_session (Some b);; mret b
                   end)) as H; [| apply H].
  apply emits_bind; [by apply emits_emit | intros _].
  destruct (session w); [apply emits_ret |].
  apply emits_bind; [apply emits_call | intros b].
  apply emits_bind; [by apply emits_emit | intros _].
  apply emits_bind; [apply emits_set_session | intros _].
  apply emits_ret.
Qed.

Lemma emits_close : Q EvClose → emits Q (close (Net:=Net)).
Proof.
  intros Hc. apply emits_bind; [by apply emits_emit | intros _].
  apply emits_set_session.
Qed.

Hypothesis Q_print : ∀ m, Q (EvPrint m).

Lemma emits_fetch_setup url website proxy timeout retry :
  (∀ c, Q (EvClientCreate c)) → Q EvProviderCreate →
  emits Q (fetch_setup env url website proxy timeout retry).
Proof.
  intros Hclient Hprov. unfold fetch_setup, AsyncWebClient_new, BrowserProvider_new.
  apply emits_bind; [by apply emits_print | intros _].
  apply emits_bind; [| intros _].
  { destruct website; [by apply emits_print | apply emits_ret]. }
  apply emits_bind; [| intros _].
  { destruct (PyStr.truthy_opt _); [by apply emits_print | apply emits_ret]. }
  apply emits_bind; [| intros c].
  { apply emits_bind; [by apply emits_emit | intros _; apply emits_ret]. }
  apply emits_bind; [| intros _; apply emits_ret].
  apply emits_bind; [by apply emits_emit | intros _; apply emits_set_session].
Qed.


End Emits.

(** ** Single-URL fetch *)

Section Fetch.
Context {Net : Type} (env : Env Net).
Implicit Types (w : World Net).






(** C3, as the code has it.  On the browser branch the pair is the page
    content with an empty error, or no page with the text of the
    exception: never both.  On the other two branches the pair is what
    the strategy or the HTTP client returned. *)
Theorem fetch_pair_by_branch
    async_client url website use_browser html error w w' :
  fetch_detail_pair env async_client url website use_browser w
  = (Ok (html, error), w') →
  match website with
  | Some s =>
      ∃ cls browser n,
        get_crawler env s = Some cls
        ∧ (_fetch_detail cls async_client (get_site_url env s) browser
             (set_appoint_url CrawlerInput_empty url) url n).1
          = Returned (html, error)
  | None =>
      if use_browser then
        ∃ b n,
          (∃ content, (page_content env b url n).1 = Returned content
                      ∧ html = Some content ∧ error = "")
          ∨ ((page_content env b url n).1 = Raised error ∧ html = None)
      else
        (get_text env async_client url (net w)).1 = Returned (html, error)
  end.
Proof.
  unfold fetch_detail_pair. destruct website as [s|].
  - destruct (get_crawler env s) as [cls|]; [| done].
    destruct use_browser.
    + unfold mbind at 1. unfold M_bind at 1.
      destruct ((b ← get_browser env; mret (Some b)) w) as [[b|e] w1]; [| done].
      unfold call.
      destruct (_fetch_detail _ _ _ _ _ _ _) as [[p|msg] n'] eqn:Hd; [| done].
      intros [= -> <-]. exists cls, b, (net w1). by rewrite Hd.
    + unfold mbind, M_bind, mret, M_ret, call.
      destruct (_fetch_detail _ _ _ _ _ _ _) as [[p|msg] n'] eqn:Hd; [| done].
      intros [= -> <-]. exists cls, None, (net w). by rewrite Hd.
  - destruct use_browser.
    + unfold mbind at 1. unfold M_bind at 1.
      destruct (get_browser env w) as [[b|e] w1]; [| done].
      unfold try_except, mbind, M_bind, mret, M_ret, call.
      destruct (page_content env b url (net w1)) as [[content|msg] n'] eqn:Hp;
        simpl; intros [= <- <- <-]; exists b, (net w1); rewrite Hp.
      * left. by exists content.
      * by right.
    + unfold call.
      destruct (get_text env async_client url (net w)) as [[p|msg] n']; [| done].
      by intros [= -> <-].
Qed.
End Fetch.

(** C3, as stated, fails: on the browser branch a navigation that raises
    an exception with an empty message leaves [html] absent and [error]
    empty, neither of the two non-empty. *)
Lemma fetch_pair_neither :
  fetch_detail_pair Sample.env (mkClient None 1 5) "https://bad.example/"
    None true Sample.w0
  = (Ok (None, ""),
     mkWorld [EvGetBrowser; EvLaunch (BrowserSession 0)]
       (Some (BrowserSession 0)) ∅ ∅ 2 [1; 0])
  ∧ ¬ html_xor_error (None, "")
  ∧ ¬ (∀ (Net : Type) (env : Env Net) async_client url website use_browser
         w p w',
         fetch_detail_pair env async_client url website use_browser w
         = (Ok p, w') → html_xor_error p).
Proof.
  assert (¬ html_xor_error (None, "")) as Hno.
  { unfold html_xor_error. simpl. intros [_ H]. by specialize (H eq_refl). }
  split_and!; [reflexivity | done |].
  intros H. apply Hno.
  by apply (H nat Sample.env (mkClient None 1 5) "https://bad.example/" None true
              Sample.w0 _ _ eq_refl).
Qed.

Lemma fetch_pair_by_branch_witness :
  ∃ b n,
    (∃ content, (page_content Sample.env b "https://ok.example/" n).1
                = Returned content
                ∧ Some "<html>rendered</html>" = Some content ∧ "" = "")
    ∨ ((page_content Sample.env b "https://ok.example/" n).1 = Raised ""
       ∧ Some "<html>rendered</html>" = None).
Proof.
  exact (fetch_pair_by_branch Sample.env (mkClient None 1 5)
           "https://ok.example/" None true (Some "<html>rendered</html>") ""
           Sample.w0 _ eq_refl).
Defined.


(** C5: a captured fetch error ends the [fetch] command with exit code 0,
    not 1: the error is printed and [_fetch_async] just returns.  The sibling failure path of an unresolved strategy (the
    detected site has no crawler) does end with 1. *)
Theorem fetch_captured_error_exits_0 :
  let r := fetch Sample.env "https://down.example/x" None false None None
             "tests/crawlers/data" None 5 1 Sample.w0 in
  exit_code r.1 = 0%Z
  ∧ prints (trace r.2)
    = [MsgFetching "https://down.example/x"; MsgFetchFailed "timeout"]
  ∧ exit_code
      (fetch Sample.env "https://www.javdb.example/v/1" None false None None
         "tests/crawlers/data" None 5 1 Sample.w0).1 = 1%Z.
Proof. by vm_compute. Qed.

(** * Further properties *)

(** ** File names derived from URLs *)

Lemma has_char_append (c : ascii) (s t : string) :
  has_char c (s +:+ t) = has_char c s || has_char c t.
Proof.
  induction s as [|a s IH]; [done |].
  rewrite append_cons. simpl. rewrite IH. by destruct (Ascii.eqb a c).
Qed.

Lemma split_pieces_free (c : ascii) (s : string) :
  Forall (λ x, has_char c x = false) (PyStr.split c s).
Proof.
  induction s as [|a s IH]; simpl; [by repeat constructor |].
  destruct (Ascii.eqb a c) eqn:Hac; [by constructor |].
  destruct (PyStr.split c s) as [|h t]; [by repeat constructor; simpl; rewrite Hac |].
  apply Forall_cons in IH as [Hh Ht].
  constructor; [| done]. simpl. by rewrite Hac, Hh.
Qed.

Lemma split_free (c : ascii) (s : string) :
  has_char c s = false → PyStr.split c s = [s].
Proof.
  induction s as [|a s IH]; simpl; [done |].
  destruct (Ascii.eqb a c); simpl; [done |]. intros H. by rewrite (IH H).
Qed.

Lemma last_Forall {A} (P : A → Prop) (l : list A) (d : A) :
  P d → Forall P l → P (List.last l d).
Proof.
  intros Hd Hl. induction Hl as [|x l Hx Hl IH]; [done |].
  destruct l; [done |]. exact IH.
Qed.

Lemma replace_removes (c d : ascii) (s : string) :
  d ≠ c → has_char c (PyStr.replace c d s) = false.
Proof.
  intros Hne. induction s as [|a s IH]; simpl; [done |].
  rewrite IH, orb_false_r.
  destruct (Ascii.eqb a c) eqn:Hac; [by apply Ascii.eqb_neq | done].
Qed.

Lemma replace_keeps_free (c x d : ascii) (s : string) :
  d ≠ c → has_char c s = false → has_char c (PyStr.replace x d s) = false.
Proof.
  intros Hne. induction s as [|a s IH]; simpl; [done |].
  intros [Ha Hs]%orb_false_elim. rewrite (IH Hs), orb_false_r.
  destruct (Ascii.eqb a x); [by apply Ascii.eqb_neq | done].
Qed.

Lemma length_append (s t : string) :
  String.length (s +:+ t) = String.length s + String.length t.
Proof. induction s as [|a s IH]; [done |]. rewrite append_cons. simpl. by rewrite IH. Qed.

Lemma path_root_free (s : string) :
  has_char "/" s = false → PyPath.path_root s = "".
Proof.
  destruct s as [|a s]; [done |]. simpl.
  intros [Ha _]%orb_false_elim.
  destruct a as [[] [] [] [] [] [] [] []]; try done.
Qed.

Lemma path_components_name (f : string) :
  has_char "/" f = false → (1 < String.length f)%nat →
  PyPath.path_components f = [f].
Proof.
  intros Hfree Hlen. unfold PyPath.path_components.
  rewrite (split_free _ _ Hfree). simpl.
  assert (PyPath.is_component f = true) as ->; [| done].
  unfold PyPath.is_component.
  destruct (String.eqb f "") eqn:E1.
  { apply String.eqb_eq in E1. subst f. simpl in Hlen. lia. }
  destruct (String.eqb f ".") eqn:E2; [| done].
  apply String.eqb_eq in E2. subst f. simpl in Hlen. lia.
Qed.

(** X1: a file name derived from a URL is one path component.  Whatever
    the URL, it contains none of [/], [=], [?] and [&], and the derived
    path is the directory [base_dir / site] extended by exactly that one
    component: a URL cannot steer the file out of that directory. *)
Theorem url_filename_one_component output_path url site number base_dir :
  PyStr.truthy_opt output_path = false →
  PyStr.truthy_opt number = false →
  _determine_output_path output_path url site number base_dir
  = PyPath.mkPath
      (PyPath.root (PyPath.of_str base_dir </> site_name site))
      (PyPath.parts (PyPath.of_str base_dir </> site_name site)
       ++ [url_filename url])
  ∧ has_char "/" (url_filename url) = false
  ∧ has_char "=" (url_filename url) = false
  ∧ has_char "?" (url_filename url) = false
  ∧ has_char "&" (url_filename url) = false.
Proof.
  intros Hout Hnum.
  destruct (determine_output_path_layout output_path url site number base_dir Hout)
    as (filename & -> & ->).
  rewrite Hnum. fold (url_filename url).
  assert (has_char "/" (url_filename url) = false) as Hslash.
  { unfold url_filename. rewrite has_char_append, orb_false_r.
    do 3 (apply replace_keeps_free; [done |]).
    apply (last_Forall (λ x, has_char "/" x = false)); [done |].
    apply split_pieces_free. }
  split_and!; [| done | | |].
  - rewrite joinpath_relative by (by rewrite path_root_free).
    rewrite path_components_name; [done | done |].
    unfold url_filename. rewrite length_append. simpl. lia.
  - unfold url_filename. rewrite has_char_append, orb_false_r.
    do 2 (apply replace_keeps_free; [done |]). by apply replace_removes.
  - unfold url_filename. rewrite has_char_append, orb_false_r.
    apply replace_keeps_free; [done |]. by apply replace_removes.
  - unfold url_filename. rewrite has_char_append, orb_false_r.
    by apply replace_removes.
Qed.

Lemma url_filename_one_component_witness :
  PyPath.parts (_determine_output_path None
                  "https://x.example/v/../a/b=1?c=2&d" (Some Sample.siteA) None
                  "tests/crawlers/data")
  = ["tests"; "crawlers"; "data"; "javbus"; "b_1_c_2_d.html"].
Proof.
  by rewrite (proj1 (url_filename_one_component None
                       "https://x.example/v/../a/b=1?c=2&d" (Some Sample.siteA)
                       None "tests/crawlers/data" eq_refl eq_refl)).
Defined.

(** X2: a number is not cleaned the way a URL is.  A number that starts
    with a slash makes the file name an absolute path, and joining drops
    [base_dir] and the site: the file is [Path(number + ".html")]. *)
Theorem absolute_number_escapes_base_dir
    output_path url site number base_dir :
  PyStr.truthy_opt output_path = false →
  _determine_output_path output_path url site (Some (String "/" number)) base_dir
  = PyPath.of_str (String "/" number +:+ ".html").
Proof.
  intros Hout.
  destruct (determine_output_path_layout output_path url site
              (Some (String "/" number)) base_dir Hout) as (filename & -> & ->).
  simpl. rewrite append_cons. unfold PyPath.joinpath at 1.
  assert (PyStr.truthy (PyPath.path_root (String "/" (number +:+ ".html"))) = true)
    as ->; [| done].
  simpl. destruct (number +:+ ".html") as [|a [|b r]]; [done | |].
  - by destruct a as [[] [] [] [] [] [] [] []].
  - destruct a as [[] [] [] [] [] [] [] []]; try done.
    by destruct b as [[] [] [] [] [] [] [] []].
Qed.

Lemma absolute_number_escapes_base_dir_witness :
  PyPath.to_str (_determine_output_path None "https://x.example/v/1"
                   (Some Sample.siteA) (Some "/tmp/x") "tests/crawlers/data")
  = "/tmp/x.html".
Proof.
  by rewrite (absolute_number_escapes_base_dir None "https://x.example/v/1"
                (Some Sample.siteA) "tmp/x" "tests/crawlers/data" eq_refl).
Defined.

(** ** What the dispatch emits *)

Section EmitsDispatch.
Context {Net : Type} (env : Env Net) (Q : Event → Prop).
Implicit Types (w : World Net).

Hypothesis Q_print : ∀ m, Q (EvPrint m).
Hypothesis Q_request : Q EvGetBrowser.
Hypothesis Q_launch : ∀ b, Q (EvLaunch b).

Lemma emits_for_enumerate {A} (k : nat) (l : list A)
    (body : nat → A → @M Net unit) :
  (∀ i x, emits Q (body i x)) → emits Q (for_enumerate k l body).
Proof.
  intros Hbody. revert k. induction l as [|x l IH]; intros k.
  - apply emits_ret.
  - apply emits_bind; [apply Hbody | intros _; apply IH].
Qed.

Lemma emits_run_coroutine (t : Coroutine Net) : emits Q (run_coroutine env t).
Proof.
  assert (emits Q (task env (coro_client t) (coro_input t) (coro_class t))) as H.
  { apply emits_bind; [by apply emits_get_browser | intros b; apply emits_call]. }
  intros w. specialize (H w). unfold run_coroutine.
  by destruct (task _ _ _ _ w) as [[r|e] w'].
Qed.

Lemma emits_complete (i : nat) (futures : list (Future Net)) :
  emits Q (complete env i futures).
Proof.
  unfold complete. destruct (futures !! i) as [[t|o]|]; try apply emits_ret.
  apply emits_bind; [apply emits_run_coroutine | intros o; apply emits_ret].
Qed.

Lemma emits_complete_all (order : list nat) (futures : list (Future Net)) :
  emits Q (complete_all env order futures).
Proof.
  revert futures. induction order as [|i order IH]; intros futures.
  - apply emits_ret.
  - apply emits_bind; [apply emits_complete | intros fs; apply IH].
Qed.

Lemma emits_wait_all (futures : list (Future Net)) :
  emits Q (wait_all env futures).
Proof.
  intros w. unfold wait_all.
  apply (emits_bind Q (complete_all env (sched w) futures)
           (λ fs, complete_all env (seq 0 (length futures)) fs));
    [apply emits_complete_all | intros fs; apply emits_complete_all].
Qed.

Lemma emits_report sites output i (f : Future Net) :
  (PyStr.truthy_opt output = true →
   (∀ p, Q (EvMkdir p)) ∧ (∀ p c, Q (EvWrite p c))) →
  emits Q (report env sites output i f).
Proof.
  intros Hfs. unfold report. destruct (sites !! i) as [s|]; [| apply emits_raise].
  apply emits_bind; [by apply emits_print | intros _].
  apply emits_bind.
  { destruct f; [apply emits_run_coroutine | apply emits_ret]. }
  intros [res|e]; [| by apply emits_print].
  apply emits_bind; [by apply emits_print | intros _].
  apply emits_bind; [by apply emits_print | intros _].
  destruct (data res) as [d|].
  - apply emits_bind; [by apply emits_print | intros _].
    apply emits_bind; [by apply emits_print | intros _].
    destruct (PyStr.truthy_opt output); [| apply emits_ret].
    destruct (Hfs eq_refl) as [Hmk Hwr].
    apply emits_bind; [by apply emits_mkdir | intros _].
    apply emits_bind; [by apply emits_write_text | intros _].
    by apply emits_print.
  - apply emits_bind; [by apply emits_print | intros _].
    destruct (PyStr.truthy _); [by apply emits_print | apply emits_ret].
Qed.

Lemma emits_crawl sites input output proxy timeout retry :
  (∀ c, Q (EvClientCreate c)) → Q EvProviderCreate →
  (PyStr.truthy_opt output = true →
   (∀ p, Q (EvMkdir p)) ∧ (∀ p c, Q (EvWrite p c))) →
  emits Q (_crawl env sites input output proxy timeout retry).
Proof.
  intros Hclient Hprov Hfs. unfold _crawl, AsyncWebClient_new, BrowserProvider_new.
  apply emits_bind; [| intros c].
  { apply emits_bind; [by apply emits_emit | intros _; apply emits_ret]. }
  apply emits_bind; [| intros _].
  { apply emits_bind; [by apply emits_emit | intros _; apply emits_set_session]. }
  apply emits_bind; [apply emits_wait_all | intros fs].
  apply emits_for_enumerate. intros i f. by apply emits_report.
Qed.
End EmitsDispatch.

Section DispatchExtras.
Context {Net : Type} (env : Env Net).
Implicit Types (w : World Net).

(** X3: without an output template ([--output] absent or empty) a dispatch
    leaves the file system alone: no directory is created, no file is
    written, whatever the sites return. *)
Theorem crawl_without_output_writes_nothing
    sites input output proxy timeout retry w :
  PyStr.truthy_opt output = false →
  files (_crawl env sites input output proxy timeout retry w).2 = files w
  ∧ dirs (_crawl env sites input output proxy timeout retry w).2 = dirs w
  ∧ count is_fs (trace (_crawl env sites input output proxy timeout retry w).2)
    = count is_fs (trace w).
Proof.
  intros Hout.
  pose proof (emits_crawl env (λ e, is_fs e = false) (λ _, eq_refl) eq_refl
                (λ _, eq_refl) sites input output proxy timeout retry
                (λ _, eq_refl) eq_refl) as H.
  destruct (H ltac:(by rewrite Hout) w) as (es & Ht & Hall & Hfs).
  destruct (Hfs Hall) as [-> ->]. split_and!; [done | done |].
  rewrite Ht, count_app, (count_zero is_fs es Hall). lia.
Qed.
End DispatchExtras.

Lemma crawl_without_output_writes_nothing_witness :
  files (_crawl Sample.env [Sample.siteA; Sample.siteB] CrawlerInput_empty
           (Some "") None 5 1 Sample.w0).2 = files Sample.w0.
Proof.
  apply (crawl_without_output_writes_nothing Sample.env
           [Sample.siteA; Sample.siteB] CrawlerInput_empty (Some "") None
           5%Z 1%Z Sample.w0). reflexivity.
Defined.

(** ** Invariants of the dispatch *)

Section WaitInvariant.
Context {Net : Type} (env : Env Net) (coros : list (Coroutine Net)).
Context (I : World Net → Prop) (P : Coroutine Net → outcome CrawlResult → Prop).
Implicit Types (w : World Net).

(** Every task of [coros] keeps [I] and ends with an outcome in [P]. *)
Hypothesis Hstep : ∀ t w, t ∈ coros → I w →
  ∃ o w', run_coroutine env t w = (Ok o, w') ∧ I w' ∧ P t o.



End WaitInvariant.

Section DispatchPhases.
Context {Net : Type} (env : Env Net).
Implicit Types (w : World Net).

(** [_crawl] is: create the client and the provider, wait for the tasks,
    run the report loop over the finished futures. *)
Lemma crawl_phases sites input output proxy timeout retry w :
  let client := mkClient (effective_proxy env proxy) retry timeout in
  let w1 := mkWorld (trace w ++ [EvClientCreate client; EvProviderCreate]) None
              (files w) (dirs w) (net w) (sched w) in
  let coros := (λ s, mkCoroutine (get_crawler_compat env s) client input)
                 <$> sites in
  ∃ os w2,
    wait_all env (Pending <$> coros) w1 = (Ok (Done <$> os), w2)
    ∧ length sites = length os
    ∧ tasks_ran (length sites) w1 w2
    ∧ _crawl env sites input output proxy timeout retry w
      = for_enumerate 0 (Done <$> os) (report env sites output) w2.
Proof.
  intros client w1 coros.
  assert (Forall2 (future_of env) coros (Pending <$> coros)) as Hall.
  { apply Forall2_fmap_r, Forall_Forall2_diag, Forall_forall.
    intros t _. by left. }
  destruct (wait_all_spec env (Pending <$> coros) coros w1 Hall)
    as (os & w2 & Hwait & Hos & Hran).
  exists os, w2. split_and!; [done | | |].
  - rewrite <- (Forall2_length _ _ _ Hos). unfold coros. by rewrite length_fmap.
  - rewrite pending_submitted in Hran. unfold coros in Hran.
    by rewrite length_fmap in Hran.
  - unfold _crawl, AsyncWebClient_new, BrowserProvider_new.
    unfold mbind at 1 2 3 4 5. unfold M_bind at 1 2 3 4 5.
    unfold mret, M_ret, emit, set_session. simpl.
    fold (effective_proxy env proxy). fold client.
    replace (map (λ c, submit (mkCoroutine c client input))
               (map (get_crawler_compat env) sites))
      with (Pending <$> coros)
      by (unfold coros, submit; by rewrite <- !list_fmap_compose).
    rewrite <- app_assoc. simpl. fold w1.
    unfold mbind, M_bind. by rewrite Hwait.
Qed.
End DispatchPhases.

Section DispatchOutcomes.
Context {Net : Type} (env : Env Net).
Implicit Types (w : World Net).

Lemma clients_app (a b : list Event) : clients (a ++ b) = clients a ++ clients b.
Proof. apply omap_app. Qed.

Lemma clients_nil_of (Q : Event → Prop) (es : list Event) :
  Forall Q es → (∀ c, ¬ Q (EvClientCreate c)) → clients es = [].
Proof.
  intros Hall HQ. induction Hall as [|e es He _ IH]; [done |].
  destruct e; simpl; try done. by destruct (HQ c).
Qed.

(** What reporting one finished site leaves in the files. *)
Lemma report_files sites output i s o w :
  sites !! i = Some s →
  files (report env sites output i (Done o) w).2 = persist output (files w) (s, o).
Proof.
  intros Hs. unfold report, persist, result_path. rewrite Hs.
  unfold mbind, mret, M_bind, M_ret, print, emit, mkdir, write_text,
    future_outcome.
  simpl.
  destruct o as [[[d|] [lg tm er]]|msg]; simpl; [| | done].
  - by destruct (PyStr.truthy_opt output).
  - by destruct (PyStr.truthy er).
Qed.

Lemma report_loop_files sites output pre ss os w :
  sites = pre ++ ss → length ss = length os →
  files (for_enumerate (length pre) (Done <$> os) (report env sites output) w).2
  = foldl (persist output) (files w) (zip ss os).
Proof.
  revert pre ss w. induction os as [|o os IH]; intros pre ss w Hsites Hlen.
  - by destruct ss.
  - destruct ss as [|s ss]; [done |]. injection Hlen as Hlen.
    assert (sites !! length pre = Some s) as Hs
      by (subst sites; by apply list_lookup_middle).
    destruct (report_spec env sites output (length pre) s o w Hs)
      as (w1 & Hr1 & _).
    pose proof (report_files sites output (length pre) s o w Hs) as Hf1.
    rewrite Hr1 in Hf1. simpl in Hf1.
    change (Done <$> o :: os) with (Done (Net:=Net) o :: (Done <$> os)).
    rewrite for_enumerate_cons, Hr1.
    specialize (IH (pre ++ [s]) ss w1).
    rewrite length_app in IH. simpl in IH.
    replace (length pre + 1) with (S (length pre)) in IH by lia.
    rewrite IH; [| by rewrite <- app_assoc | done].
    simpl. by rewrite Hf1.
Qed.

(** One list of outcomes accounts for the whole run of [_crawl]: for what
    the tasks did, for the report on the console and for the files. *)
Lemma crawl_outcomes sites input output proxy timeout retry w :
  let client := mkClient (effective_proxy env proxy) retry timeout in
  let w1 := mkWorld (trace w ++ [EvClientCreate client; EvProviderCreate]) None
              (files w) (dirs w) (net w) (sched w) in
  let coros := (λ s, mkCoroutine (get_crawler_compat env s) client input)
                 <$> sites in
  ∃ os w2 w',
    wait_all env (Pending <$> coros) w1 = (Ok (Done <$> os), w2)
    ∧ length sites = length os
    ∧ tasks_ran (length sites) w1 w2
    ∧ _crawl env sites input output proxy timeout retry w = (Ok tt, w')
    ∧ prints (trace w')
      = prints (trace w) ++ concat (zip_with (report_lines output) sites os)
    ∧ files w' = foldl (persist output) (files w) (zip sites os)
    ∧ clients (trace w') = clients (trace w) ++ [client]
    ∧ count is_provider (trace w') = S (count is_provider (trace w))
    ∧ count is_launch (trace w') + to_launch w2 = S (count is_launch (trace w)).
Proof.
  intros client w1 coros.
  destruct (crawl_phases env sites input output proxy timeout retry w)
    as (os & w2 & Hwait & Hlen & Hran & Hcrawl).
  fold client w1 coros in Hwait, Hran.
  destruct (report_loop_spec env sites output [] sites os w2 eq_refl Hlen)
    as (w' & Hloop & Hrep).
  pose proof (report_loop_files sites output [] sites os w2 eq_refl Hlen) as Hfiles.
  simpl in Hloop, Hfiles. rewrite Hloop in Hfiles. simpl in Hfiles.
  exists os, w2, w'. rewrite Hcrawl, Hloop.
  pose proof Hran as (es2 & Ht2 & Ha2 & Hr2 & Hb2 & Hl2 & Hf2 & _).
  destruct Hrep as (es3 & Ht3 & Hp3 & Ha3 & _).
  split_and!; try done.
  - rewrite Ht3, Ht2. unfold w1. simpl.
    rewrite !prints_app, Hp3, (prints_nil_of _ es2 Ha2) by done.
    simpl. by rewrite !app_nil_r.
  - by rewrite Hfiles, Hf2.
  - rewrite Ht3, Ht2. unfold w1. simpl. rewrite !clients_app.
    rewrite (clients_nil_of _ es2 Ha2), (clients_nil_of _ es3 Ha3) by done.
    simpl. by rewrite !app_nil_r.
  - rewrite Ht3, Ht2. unfold w1. simpl. rewrite !count_app.
    rewrite (count_zero_of is_provider _ es2 Ha2),
      (count_zero_of is_provider _ es3 Ha3) by (by intros []; simpl).
    unfold count at 2. simpl. lia.
  - rewrite Ht3, Ht2. unfold w1. simpl. rewrite !count_app.
    rewrite (count_zero_of is_launch _ es3 Ha3) by (by intros []; simpl).
    unfold count at 2. simpl. unfold to_launch at 2 in Hl2. simpl in Hl2. lia.
Qed.
End DispatchOutcomes.

Section DispatchExtras2.
Context {Net : Type} (env : Env Net).
Implicit Types (w : World Net).

(** X4: a dispatch creates exactly one HTTP client and one browser
    provider, however many sites it is given.  The client carries the
    [--retry] and [--timeout] values as they are, and as proxy the
    [--proxy] value if it is a non-empty string, else the configured proxy
    if proxies are enabled, else none. *)
Theorem crawl_creates_one_client sites input output proxy timeout retry w :
  clients (trace (_crawl env sites input output proxy timeout retry w).2)
  = clients (trace w) ++ [mkClient (effective_proxy env proxy) retry timeout]
  ∧ count is_provider
      (trace (_crawl env sites input output proxy timeout retry w).2)
    = S (count is_provider (trace w)).
Proof.
  destruct (crawl_outcomes env sites input output proxy timeout retry w)
    as (os & w2 & w' & _ & _ & _ & -> & _ & _ & Hclients & Hprov & _).
  by split.
Qed.




End DispatchExtras2.



(** ** The root command *)

Section MainExtras.
Context {Net : Type} (env : Env Net).
Implicit Types (w : World Net).

End MainExtras.


(** ** The fetch command *)

Section FetchExtras.
Context {Net : Type} (env : Env Net).
Implicit Types (w : World Net).






Lemma emits_fetch_async_of (Q : Event → Prop)
    url website use_browser output_path number base_dir proxy timeout retry :
  (∀ m, Q (EvPrint m)) → (∀ c, Q (EvClientCreate c)) → Q EvProviderCreate →
  (∀ p, Q (EvMkdir p)) → (∀ p c, Q (EvWrite p c)) → Q EvClose →
  (∀ c, emits Q (fetch_detail_pair env c url website use_browser)) →
  emits Q (_fetch_async env url website use_browser output_path number base_dir
             proxy timeout retry).
Proof.
  intros Hprint Hclient Hprov Hmk Hwr Hclose Hpair. unfold _fetch_async.
  apply emits_bind; [by apply emits_fetch_setup | intros c].
  apply emits_try_finally; [| by apply emits_close].
  apply emits_try_except.
  - unfold fetch_and_save.
    apply emits_bind; [apply Hpair | intros [[html|] error]].
    + apply emits_bind; [by apply emits_mkdir | intros _].
      apply emits_bind; [by apply emits_write_text | intros _].
      apply emits_bind; [by apply emits_print | intros _].
      apply emits_bind; [by apply emits_print | intros _].
      by apply emits_print.
    + by apply emits_print.
  - intros e. apply emits_bind; [by apply emits_print | intros _].
    apply emits_raise.
Qed.

Lemma emits_fetch_of (Q : Event → Prop)
    url site use_browser output number base_dir proxy timeout retry :
  (∀ m, Q (EvPrint m)) → (∀ c, Q (EvClientCreate c)) → Q EvProviderCreate →
  (∀ p, Q (EvMkdir p)) → (∀ p c, Q (EvWrite p c)) → Q EvClose →
  (∀ c website, emits Q (fetch_detail_pair env c url website use_browser)) →
  emits Q (fetch env url site use_browser output number base_dir proxy timeout
             retry).
Proof.
  intros Hprint Hclient Hprov Hmk Hwr Hclose Hpair. unfold fetch.
  apply emits_bind; [| intros ws; by apply emits_fetch_async_of].
  destruct site as [s|]; [apply emits_ret |].
  apply emits_bind; [| intros _; apply emits_ret].
  destruct (_detect_site_from_url env url); [by apply emits_print | apply emits_ret].
Qed.

(** Without a browser the three branches emit console lines only. *)
Lemma emits_fetch_detail_pair_plain (Q : Event → Prop) c url website :
  (∀ m, Q (EvPrint m)) →
  emits Q (fetch_detail_pair env c url website false).
Proof.
  intros Hprint. unfold fetch_detail_pair. destruct website as [s|].
  - destruct (get_crawler env s) as [cls|].
    + apply emits_bind; [apply emits_ret | intros b; apply emits_call].
    + apply emits_bind; [by apply emits_print | intros _; apply emits_raise].
  - apply emits_call.
Qed.

(** X12: without [--use-browser] the fetch command never asks the
    provider for the browser, so none is launched: the site-specific
    strategy is built with no browser and the generic path is the plain
    HTTP request. *)
Theorem fetch_without_flag_no_browser
    url site output number base_dir proxy timeout retry w :
  count is_request
    (trace (fetch env url site false output number base_dir proxy timeout
              retry w).2)
  = count is_request (trace w)
  ∧ count is_launch
      (trace (fetch env url site false output number base_dir proxy timeout
                retry w).2)
    = count is_launch (trace w).
Proof.
  destruct (emits_fetch_of (λ e, is_request e || is_launch e = false)
              url site false output number base_dir proxy timeout retry
              (λ _, eq_refl) (λ _, eq_refl) eq_refl (λ _, eq_refl)
              (λ _ _, eq_refl) eq_refl
              (λ c ws, emits_fetch_detail_pair_plain _ c url ws (λ _, eq_refl)) w)
    as (es & -> & Hall & _).
  rewrite !count_app.
  rewrite (count_zero_of is_request _ es Hall),
    (count_zero_of is_launch _ es Hall) by (by intros []; simpl).
  lia.
Qed.



End FetchExtras.




(** ** Exit codes *)

Section ExitCodes.
Context {Net : Type} (env : Env Net).
Implicit Types (w : World Net).





End ExitCodes.

(** ** The detection table *)

Section DetectionExtras.
Context {Net : Type} (env : Env Net).

(** X15: entries appended to the detection table never change what is
    detected for a URL that an earlier entry matches; they are consulted
    only when no earlier entry matches. *)
Theorem detect_loop_app (items more : list (string * Website)) (url_lower : string) :
  detect_loop env (items ++ more) url_lower
  = match detect_loop env items url_lower with
    | Some s => Some s
    | None => detect_loop env more url_lower
    end.
Proof.
  induction items as [|[k v] items IH]; simpl; [done |].
  by destruct (PyStr.contains (str_lower env k) url_lower).
Qed.
End DetectionExtras.

(** ** Output templates without a placeholder *)




Section TemplateExtras.
Context {Net : Type} (env : Env Net).
Implicit Types (w : World Net).

End TemplateExtras.

